(** * Boilerplate_checker.py: header matching against license templates

    A shallow embedding of [src/Boilerplate_checker.py].  Python [str] values
    are lists of characters, the template dictionary is a finite map, the
    [re] patterns of [compile_regex_patterns] are terms of a small regular
    expression syntax run by a backtracking matcher with the priorities of
    Python's engine (alternatives left to right, greedy repetition), and
    [print] calls are recorded as a list of output events. *)

From Stdlib Require Import Ascii String DecimalString ZArith Lia.
From stdpp Require Import gmap strings list.

Local Open Scope list_scope.

(** ** Text *)

(** A Python [str]; characters range over the code points below 256. *)
Abbreviation str := (list ascii).

Definition txt (s : string) : str := list_ascii_of_string s.

Definition nl : ascii := "010"%char.

(** [str(n)] for an [int]. *)
Definition str_of_int (n : Z) : str :=
  txt (NilZero.string_of_int (Z.to_int n)).

(** [range(lo, hi)] *)
Definition range (lo hi : Z) : list Z :=
  map (fun i => (lo + Z.of_nat i)%Z) (seq 0 (Z.to_nat (hi - lo))).

Definition is_digit (c : ascii) : bool :=
  let n := nat_of_ascii c in (48 <=? n) && (n <=? 57).

(** The line boundaries of [str.splitlines] among the first 256 code points:
    LF, VT, FF, CR, FS, GS, RS and NEL. *)
Definition is_linebreak (c : ascii) : bool :=
  let n := nat_of_ascii c in
  (n =? 10) || (n =? 11) || (n =? 12) || (n =? 13) ||
  (n =? 28) || (n =? 29) || (n =? 30) || (n =? 133).

Definition cr : ascii := "013"%char.

(** [str.splitlines()]: the lines without their terminators; a CR LF pair is
    one terminator and a final terminator opens no empty last line.  [cur]
    is the line being collected, in reverse. *)
Fixpoint splitlines_from (cur : str) (s : str) : list str :=
  match s with
  | [] => match cur with [] => [] | _ => [rev cur] end
  | c :: s' =>
      if is_linebreak c then
        if Ascii.eqb c cr then
          match s' with
          | c' :: s'' =>
              if Ascii.eqb c' nl then rev cur :: splitlines_from [] s''
              else rev cur :: splitlines_from [] s'
          | [] => rev cur :: splitlines_from [] s'
          end
        else rev cur :: splitlines_from [] s'
      else splitlines_from (c :: cur) s'
  end.

Definition splitlines (s : str) : list str := splitlines_from [] s.

(** ** Regular expressions *)

Module Re.

(** The fragment of [re] syntax that [compile_regex_patterns] uses.  The
    patterns with anchors are all compiled with [re.MULTILINE], so [Bol] and
    [Eol] are the multi-line anchors.  Capture groups do not change what is
    matched and are not represented. *)
Inductive regex : Type :=
| Empty                       (* the empty pattern *)
| Lit (a : ascii)             (* a literal character *)
| Dot                         (* .   any character but a newline *)
| Class (cs : str)            (* [...] *)
| Bol                         (* ^   start of the text or after a newline *)
| Eol                         (* $   end of the text or before a newline *)
| Cat (r1 r2 : regex)         (* r1 r2 *)
| Branch (r1 r2 : regex)      (* r1|r2 *)
| Star (r : regex).           (* r*  greedy *)

(** r+ *)
Definition Plus (r : regex) : regex := Cat r (Star r).

(** A literal string. *)
Fixpoint lits (w : str) : regex :=
  match w with
  | [] => Empty
  | a :: w' => Cat (Lit a) (lits w')
  end.

(** ['|'.join(alternatives)]; joining nothing gives the empty pattern. *)
Fixpoint branches (rs : list regex) : regex :=
  match rs with
  | [] => Empty
  | [r] => r
  | r :: rs' => Branch r (branches rs')
  end.

(** A position in the subject: the text that remains, and whether the
    position is at the start of the text or just after a newline. *)
Record cursor : Type := Cursor { at_bol : bool; rest : str }.

Definition advance (x : ascii) (s : str) : cursor := Cursor (Ascii.eqb x nl) s.

Definition mem (x : ascii) (cs : str) : bool := existsb (Ascii.eqb x) cs.

(** The rounds of a greedy repetition whose body is matched by [body]:
    another round is tried before stopping, and a round that consumes
    nothing is not repeated.  [n] bounds the number of rounds by the length
    of the text that remains. *)
Fixpoint rounds (body : cursor -> (cursor -> option cursor) -> option cursor)
    (k : cursor -> option cursor) (n : nat) (c : cursor) {struct n}
  : option cursor :=
  match n with
  | 0 => k c
  | S n' =>
      match body c (fun c' =>
              if length (rest c') <? length (rest c)
              then rounds body k n' c' else None) with
      | Some e => Some e
      | None => k c
      end
  end.

(** The backtracking matcher, in continuation-passing style: [rmatch r c k]
    matches [r] at [c] and hands the position after the match to [k]; when
    [k] refuses, the next way of matching [r] is tried. *)
Fixpoint rmatch (r : regex) (c : cursor) (k : cursor -> option cursor)
  : option cursor :=
  match r with
  | Empty => k c
  | Lit a =>
      match rest c with
      | x :: s => if Ascii.eqb x a then k (advance x s) else None
      | [] => None
      end
  | Dot =>
      match rest c with
      | x :: s => if Ascii.eqb x nl then None else k (advance x s)
      | [] => None
      end
  | Class cs =>
      match rest c with
      | x :: s => if mem x cs then k (advance x s) else None
      | [] => None
      end
  | Bol => if at_bol c then k c else None
  | Eol =>
      match rest c with
      | [] => k c
      | x :: _ => if Ascii.eqb x nl then k c else None
      end
  | Cat r1 r2 => rmatch r1 c (fun c' => rmatch r2 c' k)
  | Branch r1 r2 =>
      match rmatch r1 c k with
      | Some e => Some e
      | None => rmatch r2 c k
      end
  | Star r1 => rounds (rmatch r1) k (length (rest c)) c
  end.

(** One attempt at position [c]; with [must_advance] an empty match at [c]
    is refused, so that the engine backtracks into a longer one. *)
Definition match_at (r : regex) (must_advance : bool) (c : cursor)
  : option cursor :=
  rmatch r c (fun e =>
    if must_advance && (length (rest e) =? length (rest c)) then None
    else Some e).

(** [pattern.search] from a position on: the leftmost position with a
    match.  The result is the text skipped before the match, and the
    positions where the match starts and ends.  [must_advance] only
    constrains the attempt at the first position. *)
Fixpoint search_from (r : regex) (must_advance : bool) (b : bool) (s : str)
  {struct s} : option (str * cursor * cursor) :=
  match match_at r must_advance (Cursor b s) with
  | Some e => Some ([], Cursor b s, e)
  | None =>
      match s with
      | [] => None
      | x :: s' =>
          match search_from r false (Ascii.eqb x nl) s' with
          | Some (skipped, c, e) => Some (x :: skipped, c, e)
          | None => None
          end
      end
  end.

(** [bool(pattern.search(s))] *)
Definition search (r : regex) (s : str) : bool :=
  match search_from r false true s with Some _ => true | None => false end.

(** [pattern.subn(repl, s, 1)[0]]: the leftmost match is replaced. *)
Definition sub_first (r : regex) (repl : str) (s : str) : str :=
  match search_from r false true s with
  | Some (skipped, _, e) => skipped ++ repl ++ rest e
  | None => s
  end.

(** The loop of [pattern.sub(repl, s)]: matches are found left to right,
    each search starting where the previous match ended; after an empty
    match the next one must advance. *)
Fixpoint sub_loop (fuel : nat) (r : regex) (repl : str)
    (must_advance : bool) (b : bool) (s : str) : str :=
  match fuel with
  | 0 => s
  | S fuel' =>
      match search_from r must_advance b s with
      | Some (skipped, c, e) =>
          skipped ++ repl ++
            sub_loop fuel' r repl (length (rest e) =? length (rest c))
              (at_bol e) (rest e)
      | None => s
      end
  end.

(** [pattern.sub(repl, s)].  Every two searches consume a character, so the
    loop runs at most [2 * len(s) + 2] times. *)
Definition sub (r : regex) (repl : str) (s : str) : str :=
  sub_loop (2 * length s + 2) r repl false true s.

End Re.

(** ** Paths: the parts of [os.path] (POSIX) and [str] that the checker calls *)

(** [s.rfind(ch)]: the index of the last occurrence of [ch], or -1. *)
Fixpoint rfind_from (ch : ascii) (i : Z) (found : Z) (s : str) : Z :=
  match s with
  | [] => found
  | x :: s' => rfind_from ch (i + 1) (if Ascii.eqb x ch then i else found) s'
  end.

Definition rfind (ch : ascii) (s : str) : Z := rfind_from ch 0 (-1) s.

(** [s[i:]] and [s[i:j]] for indices that are not negative. *)
Definition slice_from (i : Z) (s : str) : str := drop (Z.to_nat i) s.
Definition slice (i j : Z) (s : str) : str :=
  take (Z.to_nat j - Z.to_nat i) (drop (Z.to_nat i) s).

Definition sep : ascii := "/"%char.
Definition extsep : ascii := "."%char.

(** [os.path.basename(p)] *)
Definition basename (p : str) : str := slice_from (rfind sep p + 1) p.

(** [os.path.splitext(p)[1]]: the text from the last dot of the last path
    component on, unless only dots come before it in that component. *)
Definition splitext_ext (p : str) : str :=
  let sepIndex := rfind sep p in
  let dotIndex := rfind extsep p in
  if (sepIndex <? dotIndex)%Z then
    if existsb (fun x => negb (Ascii.eqb x extsep))
         (slice (sepIndex + 1) dotIndex p)
    then slice_from dotIndex p
    else []
  else [].

(** [s.split(".")[-1]] *)
Definition after_last_dot (s : str) : str := slice_from (rfind extsep s + 1) s.

(** [str.lower] on one character: the letters A-Z and the upper-case
    letters of Latin-1. *)
Definition lower_char (c : ascii) : ascii :=
  let n := nat_of_ascii c in
  if ((65 <=? n) && (n <=? 90)) ||
     ((192 <=? n) && (n <=? 222) && negb (n =? 215))
  then ascii_of_nat (n + 32) else c.

Definition lower (s : str) : str := map lower_char s.

(** ** The checker *)

(** The compiled patterns, by their keys in the [regexs] dictionary. *)
Record regexs : Type := Regexs {
  year : Re.regex;
  date : Re.regex;
  go_build_constraints : Re.regex;
  shebang : Re.regex;
  generated : Re.regex
}.

(** [get_current_year_regex], with the clock's year as an argument: the
    alternatives [2014|2015|...|current_year]. *)
Definition get_current_year_regex (current_year : Z) : Re.regex :=
  Re.branches
    (map (fun y => Re.lits (str_of_int y)) (range 2014 (current_year + 1))).

(** [compile_regex_patterns] *)
Definition compile_regex_patterns (current_year : Z) : regexs :=
  {| year := Re.lits (txt "YEAR");
     date := get_current_year_regex current_year;
     go_build_constraints :=
       Re.Cat Re.Bol
         (Re.Cat
            (Re.Plus
               (Re.Cat (Re.lits (txt "//"))
                  (Re.Cat
                     (Re.Branch (Re.lits (txt "go:build"))
                        (Re.lits (txt " +build")))
                     (Re.Cat (Re.Star Re.Dot) (Re.Lit nl)))))
            (Re.Lit nl));
     shebang :=
       Re.Cat Re.Bol
         (Re.Cat
            (Re.Cat (Re.lits (txt "#!")) (Re.Cat (Re.Star Re.Dot) (Re.Lit nl)))
            (Re.Star (Re.Lit nl)));
     generated :=
       Re.Cat Re.Bol
         (Re.Cat (Re.Plus (Re.Class (txt "/*#")))
            (Re.Cat (Re.Plus (Re.Lit " "%char))
               (Re.Cat (Re.Star Re.Dot)
                  (Re.Cat (Re.lits (txt " DO NOT EDIT.")) Re.Eol)))) |}.

(** [is_generated_file] *)
Definition is_generated_file (data : str) (rx : regexs) : bool :=
  Re.search (generated rx) data.

(** [get_file_extension] *)
Definition get_file_extension (filename : str) : str :=
  lower (after_last_dot (splitext_ext filename)).

(** Where [print] writes. *)
Inductive stream : Type := Stdout | Stderr.

(** [verbose_out = sys.stderr if args.verbose else None] *)
Definition verbose_out (verbose : bool) : option stream :=
  if verbose then Some Stderr else None.

(** What the program writes: a line printed to a stream, or the lines of
    [difflib.unified_diff(a, b, fromfile, tofile, lineterm="")] printed to a
    stream one by one. *)
Inductive event : Type :=
| Line (to : stream) (line : str)
| DiffLines (to : stream) (a b : list str) (fromfile tofile : str).

(** [print(line, file=file)]: with [file=None] the line goes to
    [sys.stdout]. *)
Definition print (line : str) (file : option stream) : event :=
  Line (default Stdout file) line.

(** The loop [for line in difflib.unified_diff(...): print(line, file=file)]. *)
Definition print_unified_diff (a b : list str) (fromfile tofile : str)
    (file : option stream) : event :=
  DiffLines (default Stdout file) a b fromfile tofile.

(** What [open(filename)] followed by [stream.read()] does: it gives the
    text, or raises an [OSError], or raises another exception (a
    [UnicodeDecodeError] on bytes that are not text in the default encoding,
    a [ValueError] on a name with a null character).  [msg] is the
    exception's [str]. *)
Inductive read_result : Type :=
| Content (data : str)
| RaisesOSError (msg : str)
| RaisesOther (exc : str).

(** How a call ends. *)
Inductive outcome (A : Type) : Type :=
| Return (a : A)
| Raise (exc : str).
Arguments Return {A} a.
Arguments Raise {A} exc.

(** The key under which the template is looked up. *)
Definition template_key (gen : bool) (filename : str) : str :=
  let extension := get_file_extension filename in
  if gen && bool_decide (extension = txt "go") then txt "generatego"
  else extension.

(** [refs.get(extension, refs.get(os.path.basename(filename), []))] *)
Definition lookup_ref (refs : gmap str (list str)) (extension filename : str)
  : list str :=
  default (default [] (refs !! basename filename)) (refs !! extension).

(** The removal of "extra content from the top of files based on
    extension". *)
Definition strip_preamble (rx : regexs) (extension : str) (data : str) : str :=
  if bool_decide (extension = txt "go") || bool_decide (extension = txt "generatego")
  then Re.sub_first (go_build_constraints rx) [] data
  else if bool_decide (extension = txt "sh") || bool_decide (extension = txt "py")
  then Re.sub_first (shebang rx) [] data
  else data.

Definition msg_unable (filename msg : str) : str :=
  txt "Unable to open " ++ filename ++ txt ": " ++ msg.

Definition msg_smaller (filename : str) (ndata nref : nat) : str :=
  txt "File " ++ filename ++ txt " smaller than reference (" ++
  str_of_int (Z.of_nat ndata) ++ txt " < " ++ str_of_int (Z.of_nat nref) ++
  txt ")".

Definition msg_year (gen : bool) (filename : str) : str :=
  if gen
  then txt "File " ++ filename ++
       txt " has the YEAR field, but it should not be in generated file"
  else txt "File " ++ filename ++
       txt " has the YEAR field, but is missing the year of date".

Definition msg_mismatch (filename : str) : str :=
  txt "Header in " ++ filename ++ txt " does not match reference. Showing diff:".

(** [file_passes_check] from the line after the file was read:
    [data] is the file's text. *)
Definition check_data (verbose : bool) (filename : str)
    (refs : gmap str (list str)) (rx : regexs) (data : str)
  : list event * bool :=
  let gen := is_generated_file data rx in
  let extension := template_key gen filename in
  let ref := lookup_ref refs extension filename in
  let data := strip_preamble rx extension data in
  let data := splitlines data in
  if length data <? length ref then
    ([print (msg_smaller filename (length data) (length ref))
        (verbose_out verbose)], false)
  else
    let data := take (length ref) data in
    if existsb (Re.search (year rx)) data then
      ([print (msg_year gen filename) (verbose_out verbose)], false)
    else
      let data :=
        if negb gen then map (Re.sub (date rx) (txt "YEAR")) data else data in
      if negb (bool_decide (ref = data)) then
        ([print (msg_mismatch filename) (verbose_out verbose)] ++
         (if verbose
          then [print_unified_diff ref data (txt "reference") filename
                  (verbose_out verbose)]
          else []),
         false)
      else ([], true).

(** [file_passes_check]; [opened] is what reading [filename] does. *)
Definition file_passes_check (verbose : bool) (opened : read_result)
    (filename : str) (refs : gmap str (list str)) (rx : regexs)
  : list event * outcome bool :=
  match opened with
  | RaisesOSError exc =>
      ([print (msg_unable filename exc) (verbose_out verbose)], Return false)
  | RaisesOther exc => ([], Raise exc)
  | Content data =>
      let '(out, verdict) := check_data verbose filename refs rx data in
      (out, Return verdict)
  end.

(** The [for] loop of [main] over [files_to_check]; [fs] says what reading
    each file does.  An exception that leaves [file_passes_check] leaves the
    loop. *)
Fixpoint check_files (verbose : bool) (fs : str -> read_result)
    (refs : gmap str (list str)) (rx : regexs) (files_to_check : list str)
  : list event * outcome unit :=
  match files_to_check with
  | [] => ([], Return tt)
  | filename :: files =>
      match file_passes_check verbose (fs filename) filename refs rx with
      | (out, Raise exc) => (out, Raise exc)
      | (out, Return passed) =>
          let failed :=
            if negb passed then [Line Stdout (txt "Failed: " ++ filename)]
            else [] in
          let '(out', r) := check_files verbose fs refs rx files in
          (out ++ failed ++ out', r)
      end
  end.

(** [main], given the clock's year, the templates that
    [get_boilerplate_refs] loaded and the list that [get_files_to_check]
    returned. *)
Definition main (verbose : bool) (current_year : Z) (fs : str -> read_result)
    (refs : gmap str (list str)) (files_to_check : list str)
  : list event * outcome Z :=
  let regexs := compile_regex_patterns current_year in
  match check_files verbose fs refs regexs files_to_check with
  | (out, Return _) => (out, Return 0%Z)
  | (out, Raise exc) => (out, Raise exc)
  end.

(** ** Vocabulary for the statements *)

(** The template that [file_passes_check] compares a file with: the one of
    its extension (of ["generatego"] for a generated Go file), else the one
    of its base name, else no lines. *)
Definition reference (refs : gmap str (list str)) (rx : regexs)
    (filename data : str) : list str :=
  lookup_ref refs (template_key (is_generated_file data rx) filename) filename.

(** The lines of the file after its preamble was removed. *)
Definition normalized_lines (rx : regexs) (filename data : str) : list str :=
  splitlines
    (strip_preamble rx (template_key (is_generated_file data rx) filename) data).

(** The normalized header: the lines within the template's window. *)
Definition normalized_header (refs : gmap str (list str)) (rx : regexs)
    (filename data : str) : list str :=
  take (length (reference refs rx filename data)) (normalized_lines rx filename data).

(** The header as it is compared: years replaced unless the file is
    generated. *)
Definition compared_header (refs : gmap str (list str)) (rx : regexs)
    (filename data : str) : list str :=
  if is_generated_file data rx then normalized_header refs rx filename data
  else map (Re.sub (date rx) (txt "YEAR")) (normalized_header refs rx filename data).

(** What [file_passes_check] returns for a file with the text [data], and
    what it prints. *)
Definition verdict (verbose : bool) (filename : str)
    (refs : gmap str (list str)) (rx : regexs) (data : str) : bool :=
  snd (check_data verbose filename refs rx data).

Definition output (verbose : bool) (filename : str)
    (refs : gmap str (list str)) (rx : regexs) (data : str) : list event :=
  fst (check_data verbose filename refs rx data).

(** The text contains [w]. *)
Definition contains (w s : str) : Prop := exists a b, s = a ++ w ++ b.

(** [s] without its prefix [w], when it has that prefix. *)
Fixpoint strip_prefix (w s : str) : option str :=
  match w, s with
  | [], _ => Some s
  | a :: w', x :: s' => if Ascii.eqb x a then strip_prefix w' s' else None
  | _ :: _, [] => None
  end.

(** The line-start flag after the characters of [w] were read. *)
Fixpoint bol_after (b : bool) (w : str) : bool :=
  match w with
  | [] => b
  | x :: w' => bol_after (Ascii.eqb x nl) w'
  end.

(** The first of the words [ws] that [s] starts with, and the rest of [s]. *)
Fixpoint first_prefix (ws : list str) (s : str) : option (str * str) :=
  match ws with
  | [] => None
  | w :: ws' =>
      match strip_prefix w s with
      | Some s' => Some (w, s')
      | None => first_prefix ws' s
      end
  end.

(** The alternatives of [get_current_year_regex], as texts. *)
Definition years (current_year : Z) : list str :=
  map str_of_int (range 2014 (current_year + 1)).

(** A text of four decimal digits. *)
Definition four_digits (w : str) : bool :=
  (length w =? 4) && forallb is_digit w.

(** The template line [line] with its placeholders replaced by [y], that is
    [line.replace("YEAR", y)]: the phrase of the specification, not a step
    of the program. *)
Fixpoint fill_year (y : str) (line : str) {struct line} : str :=
  match line with
  | [] => []
  | x1 :: s1 =>
      match s1 with
      | x2 :: x3 :: x4 :: s4 =>
          if bool_decide ([x1; x2; x3; x4] = txt "YEAR")
          then y ++ fill_year y s4
          else x1 :: fill_year y s1
      | _ => x1 :: fill_year y s1
      end
  end.

(** Some placeholder of the line comes right after a decimal digit. *)
Fixpoint digit_before_year (line : str) : bool :=
  match line with
  | [] => false
  | x :: s =>
      (is_digit x &&
       match strip_prefix (txt "YEAR") s with
       | Some _ => true
       | None => false
       end) || digit_before_year s
  end.

(** [r] matches the portion [p] of a text that goes on with [s']; [b] tells
    whether the portion starts a line. *)
Definition matches_portion (r : Re.regex) (b : bool) (p s' : str) : Prop :=
  exists e, Re.match_at r false (Re.Cursor b (p ++ s')) = Some e /\ Re.rest e = s'.

(** ** The patterns read as descriptions of text *)

Module ReSpec.
Import Re.

(** [matches r c e]: the text between the positions [c] and [e] has the
    form that [r] describes.  A round of a repetition consumes text. *)
Inductive matches : regex -> cursor -> cursor -> Prop :=
| M_Empty c : matches Empty c c
| M_Lit a b s : matches (Lit a) (Cursor b (a :: s)) (advance a s)
| M_Dot x b s : x <> nl -> matches Dot (Cursor b (x :: s)) (advance x s)
| M_Class cs x b s :
    mem x cs = true -> matches (Class cs) (Cursor b (x :: s)) (advance x s)
| M_Bol s : matches Bol (Cursor true s) (Cursor true s)
| M_Eol_end b : matches Eol (Cursor b []) (Cursor b [])
| M_Eol_nl b s : matches Eol (Cursor b (nl :: s)) (Cursor b (nl :: s))
| M_Cat r1 r2 c c1 e :
    matches r1 c c1 -> matches r2 c1 e -> matches (Cat r1 r2) c e
| M_Branch_l r1 r2 c e : matches r1 c e -> matches (Branch r1 r2) c e
| M_Branch_r r1 r2 c e : matches r2 c e -> matches (Branch r1 r2) c e
| M_Star_stop r c : matches (Star r) c c
| M_Star_round r c c1 e :
    matches r c c1 -> length (rest c1) < length (rest c) ->
    matches (Star r) c1 e -> matches (Star r) c e.

(** A matcher only finds what [r] describes. *)
Definition sound (body : cursor -> (cursor -> option cursor) -> option cursor)
    (r : regex) : Prop :=
  forall c k x, body c k = Some x -> exists e, matches r c e /\ k e = Some x.

(** Patterns for one character. *)
Definition single (r : regex) (p : ascii -> bool) : Prop :=
  forall b s e,
    matches r (Cursor b s) e <->
    exists x s', s = x :: s' /\ p x = true /\ e = advance x s'.

End ReSpec.

(** A line of the form "<comment-prefix> ... DO NOT EDIT.": characters among
    [/], [*] and [#], then spaces, then any text, then " DO NOT EDIT." at
    the end of the line. *)
Definition generated_marker (line : str) : Prop :=
  exists prefix spaces mid,
    line = prefix ++ spaces ++ mid ++ txt " DO NOT EDIT." /\
    prefix <> [] /\ forallb (fun x => Re.mem x (txt "/*#")) prefix = true /\
    spaces <> [] /\ forallb (fun x => Ascii.eqb x " "%char) spaces = true.

(** A character other than the newline. *)
Definition not_nl (x : ascii) : bool := negb (Ascii.eqb x nl).

(** [line] is one of the lines of [data], that is of [data.split("\n")]. *)
Definition line_of (line data : str) : Prop :=
  forallb not_nl line = true /\
  exists before after,
    data = before ++ line ++ after /\
    (before = [] \/ exists b, before = b ++ [nl]) /\
    (after = [] \/ exists a, after = nl :: a).

(** ** The rest of the program: loading the templates, choosing the files *)

(** [s.split(ch)] for a separator of one character; [cur] is the piece being
    collected, in reverse. *)
Fixpoint split_from (ch : ascii) (cur : str) (s : str) : list str :=
  match s with
  | [] => [rev cur]
  | x :: s' =>
      if Ascii.eqb x ch then rev cur :: split_from ch [] s'
      else split_from ch (x :: cur) s'
  end.

Definition split (ch : ascii) (s : str) : list str := split_from ch [] s.

(** The loop of [get_boilerplate_refs] over the paths that [glob.glob]
    returned, from the dictionary [refs] on.  [l[1]] on a list that is too
    short raises an [IndexError]; an exception on reading a template leaves
    the function. *)
Fixpoint load_refs (fs : str -> read_result) (paths : list str)
    (refs : gmap str (list str)) : outcome (gmap str (list str)) :=
  match paths with
  | [] => Return refs
  | path :: paths' =>
      match split extsep (basename path) !! 1 with
      | None => Raise (txt "list index out of range")
      | Some extension =>
          match fs path with
          | Content data =>
              load_refs fs paths' (<[extension := splitlines data]> refs)
          | RaisesOSError msg => Raise msg
          | RaisesOther exc => Raise exc
          end
      end
  end.

(** [get_boilerplate_refs]; [globbed] is the list that
    [glob.glob(os.path.join(args.boilerplate_dir, "boilerplate.*.txt"))]
    returned. *)
Definition get_boilerplate_refs (fs : str -> read_result) (globbed : list str)
  : outcome (gmap str (list str)) :=
  load_refs fs globbed ∅.

(** [w in s] for two texts. *)
Fixpoint substring (w s : str) : bool :=
  match strip_prefix w s with
  | Some _ => true
  | None =>
      match s with
      | [] => false
      | _ :: s' => substring w s'
      end
  end.

(** [os.path.isabs(p)] *)
Definition isabs (p : str) : bool :=
  match p with
  | x :: _ => Ascii.eqb x sep
  | [] => false
  end.

(** [path.endswith(sep)] *)
Definition ends_with_sep (path : str) : bool :=
  match last path with
  | Some x => Ascii.eqb x sep
  | None => false
  end.

(** [os.path.join(path, b)] *)
Definition join (path b : str) : str :=
  if isabs b then b
  else if match path with [] => true | _ => false end || ends_with_sep path
  then path ++ b
  else path ++ [sep] ++ b.

(** The module's global [skipped_names]: no statement of the file binds the
    name, so that reading it raises a [NameError]. *)
Definition skipped_names : option (list str) := None.

(** The loop of [normalize_files] from the list [filtered_files] on.  Each
    turn reads the global [skipped_names] first. *)
Fixpoint normalize_loop (rootdir : str) (files : list str)
    (filtered_files : list str) : outcome (list str) :=
  match files with
  | [] => Return filtered_files
  | pathname :: files' =>
      match skipped_names with
      | None => Raise (txt "name 'skipped_names' is not defined")
      | Some skipped =>
          if negb (existsb (fun skip => substring skip pathname) skipped)
          then
            let full_path :=
              if negb (isabs pathname) then join rootdir pathname
              else pathname in
            normalize_loop rootdir files' (filtered_files ++ [full_path])
          else normalize_loop rootdir files' filtered_files
      end
  end.

(** [normalize_files]; [rootdir] is [args.rootdir]. *)
Definition normalize_files (rootdir : str) (files : list str)
  : outcome (list str) :=
  normalize_loop rootdir files [].

(** The files that the walk of [get_files_to_check] keeps from one directory:
    [root] joined with the names whose extension or whole name is a template
    key. *)
Definition files_of (extensions : gset str) (root : str) (filenames : list str)
  : list str :=
  map (join root)
    (List.filter
       (fun name => bool_decide (get_file_extension name ∈ extensions) ||
                    bool_decide (name ∈ extensions))
       filenames).

(** The list [files] of [get_files_to_check]: the names of the command line
    when there are some, and otherwise what the walk keeps.  [filenames] is
    [args.filenames] and [walked] holds the triples [(root, dirs, filenames)]
    that [os.walk(args.rootdir)] yields. *)
Definition files_given (filenames : list str)
    (walked : list (str * list str * list str)) (extensions : gset str)
  : list str :=
  match filenames with
  | _ :: _ => filenames
  | [] =>
      flat_map
        (fun '(root, dirs, filenames) => files_of extensions root filenames)
        walked
  end.

(** [get_files_to_check] *)
Definition get_files_to_check (rootdir : str) (filenames : list str)
    (walked : list (str * list str * list str)) (extensions : gset str)
  : outcome (list str) :=
  normalize_files rootdir (files_given filenames walked extensions).

(** [main] from its first line on, with what it takes from its environment
    as arguments: the templates are loaded, the files are chosen, and the
    loop runs.  An exception that leaves one of the calls leaves [main]. *)
Definition main_program (verbose : bool) (current_year : Z)
    (fs : str -> read_result) (globbed : list str)
    (rootdir : str) (filenames : list str)
    (walked : list (str * list str * list str))
  : list event * outcome Z :=
  match get_boilerplate_refs fs globbed with
  | Raise exc => ([], Raise exc)
  | Return refs =>
      match get_files_to_check rootdir filenames walked (dom refs) with
      | Raise exc => ([], Raise exc)
      | Return files_to_check =>
          main verbose current_year fs refs files_to_check
      end
  end.

(** ** Vocabulary for the further properties *)

(** What comes before the last component of a path: nothing, or a directory
    part that ends with the separator. *)
Definition dir_prefix (pre : str) : Prop := pre = [] \/ exists d, pre = d ++ [sep].

(** The key under which [get_boilerplate_refs] files the template at [path]:
    [os.path.basename(path).split(".")[1]]. *)
Definition ref_key (path : str) : option str :=
  split extsep (basename path) !! 1.

(** A template that can be loaded: its path has a key and its file can be
    read. *)
Definition loadable (fs : str -> read_result) (path : str) : Prop :=
  is_Some (ref_key path) /\ exists data, fs path = Content data.

(** A text without line boundaries. *)
Definition one_line (line : str) : Prop :=
  Forall (fun x => is_linebreak x = false) line.

(** The event is written to the standard output. *)
Definition on_stdout (e : event) : bool :=
  match e with
  | Line Stdout _ | DiffLines Stdout _ _ _ _ => true
  | _ => false
  end.

(** [file_passes_check] returns [True] on [filename]. *)
Definition passes (verbose : bool) (fs : str -> read_result)
    (refs : gmap str (list str)) (rx : regexs) (filename : str) : bool :=
  match file_passes_check verbose (fs filename) filename refs rx with
  | (_, Return true) => true
  | _ => false
  end.

(** A build-constraint line: "//go:build" or "// +build", the rest of the
    line, and its newline. *)
Definition constraint_line (l : str) : Prop :=
  exists tag mid,
    l = txt "//" ++ tag ++ mid ++ [nl] /\
    (tag = txt "go:build" \/ tag = txt " +build") /\
    forallb not_nl mid = true.

(** The text before a position ends a line, or there is none. *)
Definition line_start (before : str) : Prop :=
  before = [] \/ exists b, before = b ++ [nl].

(** ** Sample inputs *)

Module Sample.

Definition rx : regexs := compile_regex_patterns 2024.

Definition go_template : list str :=
  [txt "// Copyright YEAR The Authors."; txt "// Licensed under the License."].

Definition sh_template : list str := [txt "# Copyright YEAR The Authors."].

Definition refs : gmap str (list str) :=
  <[txt "go" := go_template]>
    (<[txt "generatego" := [txt "// Copyright The Authors."]]>
       (<[txt "sh" := sh_template]> ∅)).

Definition lf : str := [nl].

(** The lines of a text file, each ended by a newline. *)
Definition text (lines : list str) : str := concat (map (fun l => l ++ lf) lines).

End Sample.

(** What opening each file of a small tree does. *)
Definition sample_fs (filename : str) : read_result :=
  if bool_decide (filename = txt "gone.go") then
    RaisesOSError (txt "[Errno 2] No such file or directory: 'gone.go'")
  else if bool_decide (filename = txt "short.go") then
    Content (Sample.text [txt "// Copyright 2020 The Authors."])
  else if bool_decide (filename = txt "year.go") then
    Content (Sample.text Sample.go_template)
  else if bool_decide (filename = txt "other.go") then
    Content (Sample.text [txt "// Copyright 2020 The Authors."; txt "package x"])
  else if bool_decide (filename = txt "binary.go") then
    RaisesOther (txt "'utf-8' codec can't decode byte 0xff in position 0: invalid start byte")
  else
    Content (Sample.text [txt "// Copyright 2020 The Authors.";
                          txt "// Licensed under the License."]).

(** What reading each file of a small template directory does. *)
Definition template_fs (path : str) : read_result :=
  if bool_decide (path = txt "hack/boilerplate.go.txt") then
    Content (Sample.text Sample.go_template)
  else if bool_decide (path = txt "hack/boilerplate.sh.txt") then
    Content (Sample.text Sample.sh_template)
  else if bool_decide (path = txt "hack/boilerplate.py.txt") then
    RaisesOSError (txt "[Errno 13] Permission denied: 'hack/boilerplate.py.txt'")
  else sample_fs path.

(** * Properties *)

(** ** The steps of the check, one lemma per exit *)

Section Exits.

Variables (verbose : bool) (filename : str) (refs : gmap str (list str))
  (rx : regexs) (data : str).

Let gen := is_generated_file data rx.
Let ref := reference refs rx filename data.
Let lines := normalized_lines rx filename data.
Let header := normalized_header refs rx filename data.

Ltac open_check :=
  unfold check_data;
  unfold header, lines, ref, gen, compared_header, normalized_header,
    normalized_lines, reference in *;
  cbv zeta.

Ltac size_check :=
  match goal with
  | |- context [?a <? ?b] => destruct (Nat.ltb_spec a b)
  end.

Lemma check_data_smaller :
  length lines < length ref ->
  check_data verbose filename refs rx data =
    ([print (msg_smaller filename (length lines) (length ref))
        (verbose_out verbose)], false).
Proof.
  open_check. intros Hlt.
  size_check; [reflexivity|lia].
Qed.

Lemma check_data_year :
  length ref <= length lines ->
  existsb (Re.search (year rx)) header = true ->
  check_data verbose filename refs rx data =
    ([print (msg_year gen filename) (verbose_out verbose)], false).
Proof.
  open_check. intros Hle Hy.
  size_check; [lia|].
  rewrite Hy. reflexivity.
Qed.

Lemma check_data_compare :
  length ref <= length lines ->
  existsb (Re.search (year rx)) header = false ->
  check_data verbose filename refs rx data =
    if bool_decide (ref = compared_header refs rx filename data)
    then ([], true)
    else (print (msg_mismatch filename) (verbose_out verbose) ::
          (if verbose
           then [print_unified_diff ref (compared_header refs rx filename data)
                   (txt "reference") filename (verbose_out verbose)]
           else []),
          false).
Proof.
  open_check. intros Hle Hy.
  size_check; [lia|].
  rewrite Hy.
  destruct (is_generated_file data rx); simpl; case_bool_decide; reflexivity.
Qed.

End Exits.

(** ** The matcher on literal patterns *)

Module ReFacts.
Import Re.

Lemma strip_prefix_Some w s s' : strip_prefix w s = Some s' <-> s = w ++ s'.
Proof.
  revert s; induction w as [|a w IH]; intros s; simpl.
  - split; [intros [= ->]|intros ->]; reflexivity.
  - destruct s as [|x s]; [split; discriminate|].
    destruct (Ascii.eqb_spec x a) as [->|Hne].
    + rewrite IH. split; [intros ->; reflexivity|intros [= ->]; reflexivity].
    + split; [discriminate|intros [= ? ?]; contradiction].
Qed.

Lemma strip_prefix_app w s : strip_prefix w (w ++ s) = Some s.
Proof. apply strip_prefix_Some; reflexivity. Qed.

Lemma strip_prefix_short w s : length s < length w -> strip_prefix w s = None.
Proof.
  intros Hlen. destruct (strip_prefix w s) as [s'|] eqn:E; [|reflexivity].
  apply strip_prefix_Some in E. subst s. rewrite length_app in Hlen. lia.
Qed.

Lemma first_prefix_Some ws s w s' :
  first_prefix ws s = Some (w, s') -> w ∈ ws /\ s = w ++ s'.
Proof.
  induction ws as [|w0 ws IH]; simpl; [discriminate|].
  destruct (strip_prefix w0 s) as [s0|] eqn:E.
  - intros [= <- <-]. apply strip_prefix_Some in E. split; [left|exact E].
  - intros H. destruct (IH H) as [Hin Hs]. split; [right; exact Hin|exact Hs].
Qed.

Lemma first_prefix_None ws s :
  first_prefix ws s = None <-> forall w, w ∈ ws -> strip_prefix w s = None.
Proof.
  induction ws as [|w0 ws IH]; simpl.
  - split; [intros _ w Hw; inversion Hw|reflexivity].
  - destruct (strip_prefix w0 s) as [s0|] eqn:E.
    + split; [discriminate|]. intros H. rewrite (H w0) in E; [discriminate|left].
    + rewrite IH. split.
      * intros H w Hw. apply elem_of_cons in Hw as [->|Hw]; [exact E|exact (H w Hw)].
      * intros H w Hw. apply H. right. exact Hw.
Qed.

(** A word of [ws] that [s] starts with is found, or an earlier one. *)
Lemma first_prefix_found ws w s' :
  w ∈ ws -> exists w1 s1, first_prefix ws (w ++ s') = Some (w1, s1).
Proof.
  intros Hin. destruct (first_prefix ws (w ++ s')) as [[w1 s1]|] eqn:E.
  - exists w1, s1. reflexivity.
  - rewrite first_prefix_None in E. specialize (E w Hin).
    rewrite strip_prefix_app in E. discriminate.
Qed.

Lemma rmatch_lits w b s k :
  rmatch (lits w) (Cursor b s) k =
    match strip_prefix w s with
    | Some s' => k (Cursor (bol_after b w) s')
    | None => None
    end.
Proof.
  revert b s; induction w as [|a w IH]; intros b s; simpl; [reflexivity|].
  destruct s as [|x s]; [reflexivity|].
  destruct (Ascii.eqb_spec x a) as [->|_]; [|reflexivity].
  unfold advance. apply IH.
Qed.

Lemma match_at_lits w b s :
  match_at (lits w) false (Cursor b s) =
    match strip_prefix w s with
    | Some s' => Some (Cursor (bol_after b w) s')
    | None => None
    end.
Proof. unfold match_at. rewrite rmatch_lits. reflexivity. Qed.

Lemma match_at_branches ws b s :
  ws <> [] ->
  match_at (branches (map lits ws)) false (Cursor b s) =
    match first_prefix ws s with
    | Some (w, s') => Some (Cursor (bol_after b w) s')
    | None => None
    end.
Proof.
  induction ws as [|w ws IH]; [congruence|]. intros _.
  destruct ws as [|w' ws].
  - simpl. fold (match_at (lits w) false (Cursor b s)).
    rewrite match_at_lits. destruct (strip_prefix w s); reflexivity.
  - change (branches (map lits (w :: w' :: ws)))
      with (Branch (lits w) (branches (map lits (w' :: ws)))).
    unfold match_at at 1. cbn [rmatch].
    fold (match_at (lits w) false (Cursor b s)).
    fold (match_at (branches (map lits (w' :: ws))) false (Cursor b s)).
    rewrite match_at_lits, IH by congruence.
    cbn [first_prefix]. destruct (strip_prefix w s); reflexivity.
Qed.

(** [search] is true exactly when some position has a match. *)
Lemma search_from_None r b s :
  search_from r false b s = None <->
  forall a s' , s = a ++ s' ->
    match_at r false (Cursor (bol_after b a) s') = None.
Proof.
  revert b; induction s as [|x s IH]; intros b.
  - simpl. destruct (match_at r false (Cursor b [])) eqn:E.
    + split; [discriminate|]. intros H. specialize (H [] [] eq_refl).
      simpl in H. congruence.
    + split; [|reflexivity]. intros _ a s' Hs.
      symmetry in Hs. apply app_eq_nil in Hs as [-> ->]. exact E.
  - cbn [search_from]. destruct (match_at r false (Cursor b (x :: s))) eqn:E.
    + split; [discriminate|]. intros H. specialize (H [] (x :: s) eq_refl).
      simpl in H. congruence.
    + destruct (search_from r false (Ascii.eqb x nl) s) as [[[sk c] e]|] eqn:E'.
      * split; [discriminate|]. intros H.
        assert (search_from r false (Ascii.eqb x nl) s = None) as Hn.
        { apply IH. intros a s' ->. apply (H (x :: a) s'). reflexivity. }
        congruence.
      * split; [|reflexivity]. intros _ a s' Hs.
        destruct a as [|y a]; simpl in Hs.
        -- subst s'. exact E.
        -- injection Hs as <- ->. simpl.
           rewrite IH in E'. apply E'. reflexivity.
Qed.

(** Where nothing matches, [sub] changes nothing. *)
Lemma sub_no_match r repl s : search r s = false -> sub r repl s = s.
Proof.
  unfold search, sub. intros H.
  replace (2 * length s + 2) with (S (2 * length s + 1)) by lia.
  simpl. destruct (search_from r false true s); [discriminate|reflexivity].
Qed.

(** One round of the [sub] loop, at a position with a match that is not
    empty and at a position without a match. *)
Lemma sub_loop_match fuel r repl b s e :
  match_at r false (Cursor b s) = Some e ->
  length (rest e) <> length s ->
  sub_loop (S fuel) r repl false b s =
    repl ++ sub_loop fuel r repl false (at_bol e) (rest e).
Proof.
  intros Hm Hlen. cbn [sub_loop].
  destruct s as [|x s]; cbn [search_from]; rewrite Hm; cbn [rest app];
    apply Nat.eqb_neq in Hlen; rewrite Hlen; reflexivity.
Qed.

Lemma sub_loop_skip fuel r repl b x s :
  match_at r false (Cursor b (x :: s)) = None ->
  sub_loop (S fuel) r repl false b (x :: s) =
    x :: sub_loop (S fuel) r repl false (Ascii.eqb x nl) s.
Proof.
  intros Hm. cbn [sub_loop search_from]. rewrite Hm.
  destruct (search_from r false (Ascii.eqb x nl) s) as [[[sk c] e]|];
    reflexivity.
Qed.

Lemma sub_loop_nil fuel r repl b :
  match_at r false (Cursor b []) = None ->
  sub_loop fuel r repl false b [] = [].
Proof.
  intros Hm. destruct fuel; [reflexivity|]. cbn [sub_loop search_from].
  rewrite Hm. reflexivity.
Qed.

(** [search] finds a match exactly when some position has one. *)
Lemma search_true r s :
  search r s = true <->
  exists a s' e, s = a ++ s' /\
    match_at r false (Cursor (bol_after true a) s') = Some e.
Proof.
  unfold search. split.
  - intros H. destruct (search_from r false true s) eqn:E; [|discriminate].
    clear H. assert (search_from r false true s <> None) as Hn by congruence.
    clear E. revert Hn. generalize true.
    induction s as [|x s IH]; intros b Hn; cbn [search_from] in Hn.
    + destruct (match_at r false (Cursor b [])) as [e|] eqn:E; [|congruence].
      exists [], [], e. split; [reflexivity|exact E].
    + destruct (match_at r false (Cursor b (x :: s))) as [e|] eqn:E.
      * exists [], (x :: s), e. split; [reflexivity|exact E].
      * destruct (IH (Ascii.eqb x nl)) as (a & s' & e & -> & Hm).
        { destruct (search_from r false (Ascii.eqb x nl) s) as [[[? ?] ?]|];
            congruence. }
        exists (x :: a), s', e. split; [reflexivity|exact Hm].
  - intros (a & s' & e & Hs & Hm).
    destruct (search_from r false true s) eqn:E; [reflexivity|].
    rewrite search_from_None in E. rewrite (E a s' Hs) in Hm. discriminate.
Qed.

(** A literal word is found exactly in the texts that contain it. *)
Lemma search_lits w s : search (lits w) s = true <-> contains w s.
Proof.
  rewrite search_true. unfold contains. split.
  - intros (a & s' & e & -> & Hm). rewrite match_at_lits in Hm.
    destruct (strip_prefix w s') as [t|] eqn:E; [|discriminate].
    apply strip_prefix_Some in E. subst s'. exists a, t. reflexivity.
  - intros (a & t & ->). exists a, (w ++ t), (Cursor (bol_after (bol_after true a) w) t).
    split; [reflexivity|]. rewrite match_at_lits, strip_prefix_app. reflexivity.
Qed.

End ReFacts.

(** ** The years that [date] matches *)

Lemma elem_of_range lo hi y : y ∈ range lo hi <-> (lo <= y < hi)%Z.
Proof.
  unfold range. rewrite list_elem_of_fmap. split.
  - intros (i & -> & Hi). apply list_elem_of_In, in_seq in Hi. lia.
  - intros Hy. exists (Z.to_nat (y - lo)). split; [lia|].
    apply list_elem_of_In, in_seq. lia.
Qed.

Lemma date_regex current_year :
  date (compile_regex_patterns current_year) =
    Re.branches (map Re.lits (years current_year)).
Proof.
  unfold years. rewrite map_map. reflexivity.
Qed.

Lemma years_elem current_year w :
  w ∈ years current_year <->
  exists y, (2014 <= y <= current_year)%Z /\ w = str_of_int y.
Proof.
  unfold years. rewrite list_elem_of_fmap. split.
  - intros (y & -> & Hy). exists y. split; [|reflexivity].
    apply elem_of_range in Hy. lia.
  - intros (y & Hy & ->). exists y. split; [reflexivity|].
    apply elem_of_range. lia.
Qed.

Lemma years_nonempty current_year :
  (2014 <= current_year)%Z -> years current_year <> [].
Proof.
  intros H Hnil. assert (str_of_int 2014 ∈ years current_year) as Hin.
  { apply years_elem. exists 2014%Z. split; [lia|reflexivity]. }
  rewrite Hnil in Hin. inversion Hin.
Qed.

Lemma str_of_int_four_digits y :
  (2014 <= y <= 9999)%Z -> four_digits (str_of_int y) = true.
Proof.
  intros Hy.
  assert (forallb (fun y => four_digits (str_of_int y)) (range 2014 10000) = true)
    as Hall by (vm_compute; reflexivity).
  rewrite forallb_forall in Hall. apply Hall, list_elem_of_In, elem_of_range. lia.
Qed.

Lemma years_four_digits current_year w :
  (current_year <= 9999)%Z -> w ∈ years current_year -> four_digits w = true.
Proof.
  intros Hc (y & Hy & ->)%years_elem. apply str_of_int_four_digits. lia.
Qed.

Section Years.
Import Re ReFacts.

Variable current_year : Z.
Hypothesis year_lo : (2014 <= current_year)%Z.
Hypothesis year_hi : (current_year <= 9999)%Z.

Let rx := compile_regex_patterns current_year.

Lemma match_at_date b s :
  match_at (date rx) false (Cursor b s) =
    match first_prefix (years current_year) s with
    | Some (w, s') => Some (Cursor (bol_after b w) s')
    | None => None
    end.
Proof.
  unfold rx. rewrite date_regex.
  apply match_at_branches, years_nonempty, year_lo.
Qed.

Lemma four_digits_length w : four_digits w = true -> length w = 4.
Proof.
  unfold four_digits. intros [H _]%andb_prop. apply Nat.eqb_eq, H.
Qed.

Lemma four_digits_digits w : four_digits w = true -> forallb is_digit w = true.
Proof. unfold four_digits. intros [_ H]%andb_prop. exact H. Qed.

Lemma is_digit_not_nl x : is_digit x = true -> Ascii.eqb x nl = false.
Proof.
  intros H. destruct (Ascii.eqb_spec x nl) as [->|]; [|reflexivity].
  vm_compute in H. discriminate.
Qed.

Lemma bol_after_digits b w :
  forallb is_digit w = true -> w <> [] -> bol_after b w = false.
Proof.
  revert b; induction w as [|x w IH]; intros b Hd Hne; [congruence|].
  simpl in Hd. apply andb_prop in Hd as [Hx Hw]. simpl.
  destruct w as [|x' w].
  - simpl. apply is_digit_not_nl, Hx.
  - apply IH; [exact Hw|discriminate].
Qed.

(** At a text that starts with a year of the range, the match is that year. *)
Lemma match_at_date_year b w s :
  w ∈ years current_year ->
  match_at (date rx) false (Cursor b (w ++ s)) = Some (Cursor false s).
Proof.
  intros Hin. rewrite match_at_date.
  destruct (first_prefix_found _ _ s Hin) as (w1 & s1 & E). rewrite E.
  apply first_prefix_Some in E as [Hin1 Heq].
  pose proof (four_digits_length _ (years_four_digits _ _ year_hi Hin)) as L.
  pose proof (four_digits_length _ (years_four_digits _ _ year_hi Hin1)) as L1.
  apply app_inj_1 in Heq as [-> ->]; [|congruence].
  rewrite bol_after_digits; [reflexivity| |intros ->; discriminate].
  apply four_digits_digits, (years_four_digits _ _ year_hi Hin1).
Qed.

Lemma no_year_at s :
  search (date rx) s = false ->
  forall a s', s = a ++ s' -> first_prefix (years current_year) s' = None.
Proof.
  unfold search. intros H a s' Hs.
  destruct (search_from (date rx) false true s) eqn:E; [discriminate|].
  rewrite search_from_None in E. specialize (E a s' Hs).
  rewrite match_at_date in E.
  destruct (first_prefix (years current_year) s') as [[? ?]|];
    [discriminate|reflexivity].
Qed.

End Years.

(** ** Filling in a year and taking it out again *)

Section FillYear.
Import Re ReFacts.

Variable y : str.
Hypothesis y_digits : four_digits y = true.

Lemma fill_year_placeholder s :
  fill_year y (txt "YEAR" ++ s) = y ++ fill_year y s.
Proof. reflexivity. Qed.

Lemma fill_year_other x s :
  strip_prefix (txt "YEAR") (x :: s) = None ->
  fill_year y (x :: s) = x :: fill_year y s.
Proof.
  intros H. destruct s as [|x2 [|x3 [|x4 s4]]]; try reflexivity.
  cbn [fill_year]. case_bool_decide as E; [|reflexivity].
  injection E as -> -> -> ->. discriminate H.
Qed.

Lemma y_head : exists d w, y = d :: w /\ is_digit d = true.
Proof.
  pose proof (four_digits_length _ y_digits) as L.
  pose proof (four_digits_digits _ y_digits) as D.
  destruct y as [|d w]; [discriminate|]. exists d, w. split; [reflexivity|].
  simpl in D. apply andb_prop in D as [D _]. exact D.
Qed.

(** A word without digits that starts the filled line starts the line. *)
Lemma plain_prefix_fill u t :
  forallb (fun x => negb (is_digit x)) u = true ->
  strip_prefix u (fill_year y t) <> None -> strip_prefix u t <> None.
Proof.
  revert t; induction u as [|a u IH]; intros t Hu Hp; [discriminate|].
  simpl in Hu. apply andb_prop in Hu as [Ha Hu].
  destruct t as [|x t]; [exact Hp|].
  destruct (strip_prefix (txt "YEAR") (x :: t)) as [t4|] eqn:E.
  - apply strip_prefix_Some in E. rewrite E, fill_year_placeholder in Hp.
    destruct y_head as (d & w & -> & Hd). simpl in Hp.
    destruct (Ascii.eqb_spec d a) as [->|]; [|congruence].
    rewrite Hd in Ha. discriminate.
  - rewrite (fill_year_other _ _ E) in Hp. simpl in Hp |- *.
    destruct (Ascii.eqb x a); [|congruence]. apply IH; assumption.
Qed.

(** A run of digits that starts the filled line starts the line, unless a
    placeholder follows a digit. *)
Lemma digits_prefix_fill u t :
  forallb is_digit u = true ->
  strip_prefix (txt "YEAR") t = None ->
  digit_before_year t = false ->
  strip_prefix u (fill_year y t) <> None -> strip_prefix u t <> None.
Proof.
  revert t; induction u as [|a u IH]; intros t Hu Hy Hd Hp; [discriminate|].
  simpl in Hu. apply andb_prop in Hu as [Ha Hu].
  destruct t as [|x t]; [exact Hp|].
  rewrite (fill_year_other _ _ Hy) in Hp. simpl in Hp |- *.
  destruct (Ascii.eqb_spec x a) as [->|]; [|congruence].
  cbn [digit_before_year] in Hd. apply orb_false_elim in Hd as [Hd1 Hd2].
  rewrite Ha in Hd1. cbn [andb] in Hd1.
  destruct (strip_prefix (txt "YEAR") t) eqn:E; [discriminate|].
  apply IH; assumption.
Qed.

Lemma digit_before_year_app a s :
  digit_before_year (a ++ s) = false -> digit_before_year s = false.
Proof.
  induction a as [|x a IH]; [trivial|]. simpl.
  intros [_ H]%orb_false_elim. apply IH, H.
Qed.

(** The filled line has no placeholder left. *)
Lemma fill_year_no_placeholder t :
  search (lits (txt "YEAR")) (fill_year y t) = false.
Proof.
  destruct (search (lits (txt "YEAR")) (fill_year y t)) eqn:E; [|reflexivity].
  exfalso. apply search_lits in E as (a & b & E).
  remember (length t) as n eqn:Hn. revert t a Hn E.
  induction n as [n IH] using lt_wf_ind. intros t a Hn E.
  destruct t as [|x t]; [destruct a; discriminate|].
  destruct (strip_prefix (txt "YEAR") (x :: t)) as [t4|] eqn:Ey.
  - apply strip_prefix_Some in Ey. rewrite Ey, fill_year_placeholder in E.
    pose proof (four_digits_length _ y_digits) as L.
    pose proof (four_digits_digits _ y_digits) as D.
    destruct (decide (length y <= length a)) as [Hle|Hgt].
    + rewrite <- (take_drop (length y) a), <- app_assoc in E.
      apply app_inj_1 in E as [_ E]; [|rewrite length_take; lia].
      apply (IH (length t4)) with (t := t4) (a := drop (length y) a);
        [|reflexivity|exact E].
      subst n. rewrite Ey, length_app. simpl. lia.
    + assert ((y ++ fill_year y t4) !! length a = Some "Y"%char) as Hl.
      { rewrite E. apply list_lookup_middle. reflexivity. }
      rewrite lookup_app_l in Hl by lia.
      apply list_elem_of_lookup_2, list_elem_of_In in Hl.
      rewrite forallb_forall in D. apply D in Hl. vm_compute in Hl.
      discriminate.
  - rewrite (fill_year_other _ _ Ey) in E. destruct a as [|x' a].
    + simpl in E.
      apply (plain_prefix_fill (txt "YEAR") (x :: t)); [reflexivity| |exact Ey].
      rewrite (fill_year_other _ _ Ey).
      change (x :: fill_year y t) with ([] ++ x :: fill_year y t).
      rewrite E. simpl. discriminate.
    + injection E as -> E.
      apply (IH (length t)) with (t := t) (a := a);
        [subst n; simpl; lia|reflexivity|exact E].
Qed.

End FillYear.

Section YearRoundTrip.
Import Re ReFacts.

Variable current_year : Z.
Hypothesis year_lo : (2014 <= current_year)%Z.
Hypothesis year_hi : (current_year <= 9999)%Z.
Variable y : str.
Hypothesis y_year : y ∈ years current_year.

Let rx := compile_regex_patterns current_year.
Let y_digits : four_digits y = true := years_four_digits _ _ year_hi y_year.

(** The loop of [sub] on a filled line writes the line back, when the line
    has no year of its own and no digit before a placeholder. *)
Lemma sub_loop_fill_year t :
  (forall a s', t = a ++ s' -> first_prefix (years current_year) s' = None) ->
  digit_before_year t = false ->
  forall fuel b,
    length (fill_year y t) < fuel ->
    sub_loop fuel (date rx) (txt "YEAR") false b (fill_year y t) = t.
Proof.
  remember (length t) as n eqn:Hn. revert t Hn.
  induction n as [n IH] using lt_wf_ind. intros t Hn Hno Hd fuel b Hfuel.
  destruct t as [|x t].
  - apply sub_loop_nil. rewrite (match_at_date _ year_lo).
    rewrite (Hno [] [] eq_refl). reflexivity.
  - destruct fuel as [|fuel]; [lia|].
    destruct (strip_prefix (txt "YEAR") (x :: t)) as [t4|] eqn:Ey.
    + apply strip_prefix_Some in Ey. rewrite Ey in *.
      rewrite (fill_year_placeholder y) in *.
      pose proof (four_digits_length _ y_digits) as L.
      rewrite (sub_loop_match _ _ _ _ _ _
                 (match_at_date_year _ year_lo year_hi b y _ y_year));
        [|cbn [rest]; rewrite length_app; lia].
      cbn [rest at_bol]. f_equal.
      apply (IH (length t4)); [rewrite Hn, length_app; simpl; lia|reflexivity| | |].
      * intros a s' ->. apply (Hno (txt "YEAR" ++ a) s').
        rewrite <- app_assoc. reflexivity.
      * apply (digit_before_year_app (txt "YEAR")), Hd.
      * rewrite length_app in Hfuel. lia.
    + rewrite (fill_year_other y _ _ Ey) in *.
      rewrite sub_loop_skip.
      * f_equal. apply (IH (length t)); [subst n; simpl; lia|reflexivity| | |].
        -- intros a s' ->. apply (Hno (x :: a) s'). reflexivity.
        -- apply (digit_before_year_app [x]), Hd.
        -- simpl in Hfuel. lia.
      * rewrite (match_at_date _ year_lo).
        destruct (first_prefix (years current_year) (x :: fill_year y t))
          as [[w s1]|] eqn:E; [|reflexivity].
        exfalso. apply first_prefix_Some in E as [Hw E].
        pose proof (Hno [] (x :: t) eq_refl) as Hnone.
        rewrite first_prefix_None in Hnone. specialize (Hnone w Hw).
        revert Hnone.
        apply (digits_prefix_fill y w (x :: t));
          [apply four_digits_digits, (years_four_digits _ _ year_hi Hw)
          |exact Ey|exact Hd|].
        rewrite (fill_year_other y _ _ Ey), E, strip_prefix_app. discriminate.
Qed.

Lemma sub_fill_year t :
  search (date rx) t = false ->
  digit_before_year t = false ->
  sub (date rx) (txt "YEAR") (fill_year y t) = t.
Proof.
  intros Hs Hd. unfold sub. apply sub_loop_fill_year; [|exact Hd|lia].
  apply (no_year_at _ year_lo), Hs.
Qed.

End YearRoundTrip.

(** ** What the matcher finds *)

Module ReSound.
Import Re ReSpec ReFacts.

Lemma rounds_sound body r :
  sound body r -> forall n, sound (fun c k => rounds body k n c) (Star r).
Proof.
  intros Hb n. induction n as [|n IH]; intros c k x H; cbn [rounds] in H.
  - exists c. split; [constructor|exact H].
  - destruct (body c _) as [e0|] eqn:E.
    + injection H as ->. apply Hb in E as (c1 & Hm & Hk).
      destruct (Nat.ltb_spec (length (rest c1)) (length (rest c))) as [Hlt|];
        [|discriminate].
      apply IH in Hk as (e & Hs & Hk). exists e. split; [|exact Hk].
      eapply M_Star_round; eassumption.
    + exists c. split; [constructor|exact H].
Qed.

Lemma rmatch_sound r : sound (rmatch r) r.
Proof.
  induction r as [|a| |cs| | |r1 IH1 r2 IH2|r1 IH1 r2 IH2|r1 IH1];
    intros [b s] k x H; cbn [rmatch rest at_bol] in H.
  - exists (Cursor b s). split; [constructor|exact H].
  - destruct s as [|y s]; [discriminate|].
    destruct (Ascii.eqb_spec y a) as [->|]; [|discriminate].
    exists (advance a s). split; [constructor|exact H].
  - destruct s as [|y s]; [discriminate|].
    destruct (Ascii.eqb_spec y nl) as [|Hne]; [discriminate|].
    exists (advance y s). split; [constructor; exact Hne|exact H].
  - destruct s as [|y s]; [discriminate|].
    destruct (mem y cs) eqn:E; [|discriminate].
    exists (advance y s). split; [constructor; exact E|exact H].
  - destruct b; [|discriminate].
    exists (Cursor true s). split; [constructor|exact H].
  - destruct s as [|y s].
    + exists (Cursor b []). split; [constructor|exact H].
    + destruct (Ascii.eqb_spec y nl) as [->|]; [|discriminate].
      exists (Cursor b (nl :: s)). split; [constructor|exact H].
  - apply IH1 in H as (c1 & Hm1 & H). apply IH2 in H as (e & Hm2 & H).
    exists e. split; [econstructor; eassumption|exact H].
  - destruct (rmatch r1 (Cursor b s) k) as [e0|] eqn:E.
    + injection H as ->. apply IH1 in E as (e & Hm & Hk).
      exists e. split; [apply M_Branch_l, Hm|exact Hk].
    + apply IH2 in H as (e & Hm & Hk).
      exists e. split; [apply M_Branch_r, Hm|exact Hk].
  - exact (rounds_sound _ _ IH1 (length s) (Cursor b s) k x H).
Qed.

(** The matcher only depends on what the continuation answers. *)
Lemma rounds_ext body :
  (forall c k1 k2, (forall e, k1 e = k2 e) -> body c k1 = body c k2) ->
  forall n c k1 k2, (forall e, k1 e = k2 e) ->
    rounds body k1 n c = rounds body k2 n c.
Proof.
  intros Hb n. induction n as [|n IH]; intros c k1 k2 Hk; cbn [rounds].
  - apply Hk.
  - rewrite (Hb c _ (fun c' => if length (rest c') <? length (rest c)
                               then rounds body k2 n c' else None)).
    + rewrite Hk. reflexivity.
    + intros e. destruct (_ <? _); [apply IH, Hk|reflexivity].
Qed.

Lemma rmatch_ext r c k1 k2 :
  (forall e, k1 e = k2 e) -> rmatch r c k1 = rmatch r c k2.
Proof.
  revert c k1 k2.
  induction r as [|a| |cs| | |r1 IH1 r2 IH2|r1 IH1 r2 IH2|r1 IH1];
    intros c k1 k2 Hk; cbn [rmatch].
  - apply Hk.
  - destruct (rest c) as [|y s]; [reflexivity|]. rewrite Hk. reflexivity.
  - destruct (rest c) as [|y s]; [reflexivity|]. rewrite Hk. reflexivity.
  - destruct (rest c) as [|y s]; [reflexivity|]. rewrite Hk. reflexivity.
  - rewrite Hk. reflexivity.
  - destruct (rest c) as [|y s]; rewrite Hk; reflexivity.
  - apply IH1. intros e. apply IH2, Hk.
  - rewrite (IH1 c k1 k2 Hk), (IH2 c k1 k2 Hk). reflexivity.
  - apply rounds_ext; [exact IH1|exact Hk].
Qed.

Lemma rmatch_refused r c : rmatch r c (fun _ => None) = None.
Proof.
  destruct (rmatch r c _) as [x|] eqn:E; [|reflexivity].
  apply rmatch_sound in E as (e & _ & E). discriminate.
Qed.

(** Rounds beyond the length of the text are never used. *)
Lemma rounds_enough r k n m c :
  length (rest c) <= n -> length (rest c) <= m ->
  rounds (rmatch r) k n c = rounds (rmatch r) k m c.
Proof.
  revert m c. induction n as [|n IH]; intros m c Hn Hm.
  - destruct m as [|m]; [reflexivity|]. cbn [rounds].
    rewrite (rmatch_ext r c _ (fun _ => None)), rmatch_refused; [reflexivity|].
    intros e. destruct (Nat.ltb_spec (length (rest e)) (length (rest c)));
      [lia|reflexivity].
  - destruct m as [|m]; cbn [rounds].
    + rewrite (rmatch_ext r c _ (fun _ => None)), rmatch_refused; [reflexivity|].
      intros e. destruct (Nat.ltb_spec (length (rest e)) (length (rest c)));
        [lia|reflexivity].
    + rewrite (rmatch_ext r c _
                 (fun c' => if length (rest c') <? length (rest c)
                            then rounds (rmatch r) k m c' else None));
        [reflexivity|].
      intros e. destruct (Nat.ltb_spec (length (rest e)) (length (rest c)));
        [|reflexivity].
      apply IH; lia.
Qed.

Lemma rmatch_complete r c e :
  matches r c e -> forall k, k e <> None -> rmatch r c k <> None.
Proof.
  induction 1 as [c|a b s|x b s Hx|cs x b s Hx|s|b|b s
                  |r1 r2 c c1 e _ IH1 _ IH2|r1 r2 c e _ IH|r1 r2 c e _ IH
                  |r c|r c c1 e _ IHr Hlt _ IHs];
    intros k Hk; cbn [rmatch rest at_bol].
  - exact Hk.
  - rewrite Ascii.eqb_refl. exact Hk.
  - destruct (Ascii.eqb_spec x nl); [contradiction|exact Hk].
  - rewrite Hx. exact Hk.
  - exact Hk.
  - exact Hk.
  - rewrite Ascii.eqb_refl. exact Hk.
  - apply IH1, IH2, Hk.
  - specialize (IH k Hk). destruct (rmatch r1 c k); congruence.
  - destruct (rmatch r1 c k); [discriminate|]. apply IH, Hk.
  - destruct (length (rest c)); cbn [rounds]; [exact Hk|].
    destruct (rmatch r c _); [discriminate|exact Hk].
  - destruct (length (rest c)) as [|m] eqn:Hm; [lia|]. cbn [rounds].
    rewrite Hm.
    match goal with
    | |- match rmatch r c ?K with _ => _ end <> None =>
        specialize (IHr K); destruct (rmatch r c K); [discriminate|]
    end.
    exfalso. apply IHr; [|reflexivity].
    destruct (Nat.ltb_spec (length (rest c1)) (S m)); [|lia].
    rewrite (rounds_enough r k m (length (rest c1))) by lia. apply (IHs k Hk).
Qed.

(** A match ends at or after the position where it starts. *)
Lemma matches_shrinks r c e : matches r c e -> length (rest e) <= length (rest c).
Proof.
  induction 1; simpl in *; lia.
Qed.

Lemma match_at_shrinks r adv c e :
  match_at r adv c = Some e ->
  length (rest e) <= length (rest c) /\
  (adv = true -> length (rest e) < length (rest c)).
Proof.
  unfold match_at. intros H. apply rmatch_sound in H as (e' & Hm & Hk).
  apply matches_shrinks in Hm.
  destruct adv; simpl in Hk.
  - destruct (Nat.eqb_spec (length (rest e')) (length (rest c))); [discriminate|].
    injection Hk as <-. lia.
  - injection Hk as <-. split; [lia|discriminate].
Qed.

Lemma search_from_shrinks r adv b s sk c e :
  search_from r adv b s = Some (sk, c, e) ->
  length (rest c) <= length s /\ length (rest e) <= length (rest c) /\
  (adv = true -> length (rest e) < length s).
Proof.
  revert adv b sk. induction s as [|x s IH]; intros adv b sk; cbn [search_from].
  - destruct (match_at r adv (Cursor b [])) as [e0|] eqn:E; [|discriminate].
    intros [= <- <- <-]. apply match_at_shrinks in E. simpl in *. intuition lia.
  - destruct (match_at r adv (Cursor b (x :: s))) as [e0|] eqn:E.
    + intros [= <- <- <-]. apply match_at_shrinks in E. simpl in *. intuition lia.
    + destruct (search_from r false (Ascii.eqb x nl) s) as [[[sk' c'] e']|] eqn:E';
        [|discriminate].
      intros [= <- <- <-]. apply IH in E'. simpl. intuition lia.
Qed.

(** The loop of [sub] ends by itself: beyond twice the length of the text,
    more rounds change nothing. *)
Lemma sub_loop_enough r repl fuel1 fuel2 adv b s :
  2 * length s + (if adv : bool then 0 else 1) < fuel1 ->
  2 * length s + (if adv : bool then 0 else 1) < fuel2 ->
  sub_loop fuel1 r repl adv b s = sub_loop fuel2 r repl adv b s.
Proof.
  revert fuel2 adv b s. induction fuel1 as [|f1 IH]; intros fuel2 adv b s H1 H2;
    [lia|].
  destruct fuel2 as [|f2]; [lia|]. cbn [sub_loop].
  destruct (search_from r adv b s) as [[[sk c] e]|] eqn:E; [|reflexivity].
  apply search_from_shrinks in E as (Hc & He & Hadv).
  do 2 f_equal. apply IH.
  - destruct (Nat.eqb_spec (length (rest e)) (length (rest c))), adv;
      try specialize (Hadv eq_refl); lia.
  - destruct (Nat.eqb_spec (length (rest e)) (length (rest c))), adv;
      try specialize (Hadv eq_refl); lia.
Qed.

Lemma sub_fuel r repl s fuel :
  2 * length s + 2 <= fuel -> sub_loop fuel r repl false true s = sub r repl s.
Proof.
  intros H. unfold sub. apply sub_loop_enough; lia.
Qed.

(** [search] is true exactly when the text has a portion of the form that
    the pattern describes. *)
Theorem search_matches r s :
  search r s = true <->
  exists a s' e, s = a ++ s' /\ matches r (Cursor (bol_after true a) s') e.
Proof.
  rewrite search_true. split.
  - intros (a & s' & e & Hs & Hm). unfold match_at in Hm.
    apply rmatch_sound in Hm as (e' & Hm & _). exists a, s', e'. auto.
  - intros (a & s' & e & Hs & Hm).
    destruct (match_at r false (Cursor (bol_after true a) s')) as [e'|] eqn:E.
    + exists a, s', e'. auto.
    + exfalso. revert E. apply (rmatch_complete _ _ _ Hm). discriminate.
Qed.

End ReSound.

(** ** The form of the generated-file marker *)

Module Marker.
Import Re ReSpec ReFacts ReSound.

Lemma single_Lit a : single (Lit a) (fun x => Ascii.eqb x a).
Proof.
  intros b s e. split.
  - inversion 1; subst. eexists _, _. rewrite Ascii.eqb_refl. auto.
  - intros (x & s' & -> & Hx & ->). apply Ascii.eqb_eq in Hx as ->. constructor.
Qed.

Lemma single_Dot : single Dot (fun x => negb (Ascii.eqb x nl)).
Proof.
  intros b s e. split.
  - inversion 1; subst. eexists _, _. split; [reflexivity|]. split; [|reflexivity].
    apply negb_true_iff, Ascii.eqb_neq. assumption.
  - intros (x & s' & -> & Hx & ->). constructor.
    apply Ascii.eqb_neq, negb_true_iff, Hx.
Qed.

Lemma single_Class cs : single (Class cs) (fun x => mem x cs).
Proof.
  intros b s e. split.
  - inversion 1; subst. eexists _, _. auto.
  - intros (x & s' & -> & Hx & ->). constructor. exact Hx.
Qed.

Lemma matches_Cat r1 r2 c e :
  matches (Cat r1 r2) c e <-> exists c1, matches r1 c c1 /\ matches r2 c1 e.
Proof.
  split.
  - inversion 1; subst. eauto.
  - intros (c1 & H1 & H2). econstructor; eassumption.
Qed.

Lemma matches_Star_single r p :
  single r p ->
  forall b s e,
    matches (Star r) (Cursor b s) e <->
    exists run, forallb p run = true /\ s = run ++ rest e /\
                at_bol e = bol_after b run.
Proof.
  intros Hr b s e. split.
  - intros H. remember (Star r) as r' eqn:Hr'. remember (Cursor b s) as c eqn:Hc.
    revert b s Hc.
    induction H as [| | | | | | | | | |r0 c|r0 c c1 e H1 _ Hlt H2 IH];
      try discriminate; intros b s Hc; injection Hr' as ->; subst c.
    + exists []. auto.
    + apply Hr in H1 as (x & s' & -> & Hx & ->).
      destruct (IH eq_refl _ _ eq_refl) as (run & Hrun & -> & Hb).
      exists (x :: run). cbn [forallb]. rewrite Hx, Hrun. auto.
  - intros (run & Hrun & -> & Hb). revert b Hb.
    induction run as [|x run IH]; intros b Hb; simpl in Hb.
    + destruct e as [be se]. simpl in *. subst be. constructor.
    + cbn [forallb] in Hrun. apply andb_prop in Hrun as [Hx Hrun].
      apply M_Star_round with (c1 := advance x (run ++ rest e)).
      * apply Hr. eauto.
      * simpl. lia.
      * apply IH; assumption.
Qed.

Lemma matches_Plus_single r p :
  single r p ->
  forall b s e,
    matches (Plus r) (Cursor b s) e <->
    exists run, run <> [] /\ forallb p run = true /\ s = run ++ rest e /\
                at_bol e = bol_after b run.
Proof.
  intros Hr b s e. unfold Plus. rewrite matches_Cat. split.
  - intros (c1 & H1 & H2). apply Hr in H1 as (x & s' & -> & Hx & ->).
    apply (matches_Star_single _ _ Hr) in H2 as (run & Hrun & -> & Hb).
    exists (x :: run). cbn [forallb]. rewrite Hx, Hrun. auto.
  - intros (run & Hne & Hrun & -> & Hb). destruct run as [|x run]; [congruence|].
    cbn [forallb] in Hrun. apply andb_prop in Hrun as [Hx Hrun].
    exists (advance x (run ++ rest e)). split; [apply Hr; eauto|].
    apply (matches_Star_single _ _ Hr). exists run. auto.
Qed.

Lemma matches_lits w b s e :
  matches (lits w) (Cursor b s) e <->
  s = w ++ rest e /\ at_bol e = bol_after b w.
Proof.
  revert b s. induction w as [|a w IH]; intros b s; cbn [lits].
  - split.
    + inversion 1; subst. auto.
    + intros [-> Hb]. destruct e as [be se]. simpl in *. subst. constructor.
  - rewrite matches_Cat. split.
    + intros (c1 & H1 & H2). inversion H1; subst.
      apply IH in H2 as [-> Hb]. auto.
    + intros [-> Hb]. exists (advance a (w ++ rest e)).
      split; [constructor|]. apply IH. auto.
Qed.

Lemma matches_Bol c e : matches Bol c e <-> at_bol c = true /\ e = c.
Proof.
  split.
  - inversion 1; subst. auto.
  - intros [Hb ->]. destruct c as [b s]. simpl in Hb. subst b. constructor.
Qed.

Lemma matches_Eol c e :
  matches Eol c e <-> e = c /\ (rest c = [] \/ exists a, rest c = nl :: a).
Proof.
  split.
  - inversion 1; subst; simpl; eauto.
  - intros [-> [H|[a H]]]; destruct c as [b s]; simpl in H; subst s; constructor.
Qed.

End Marker.

Section GeneratedMarker.
Import Re ReSpec ReFacts ReSound Marker.

Variable current_year : Z.
Let rx := compile_regex_patterns current_year.

Lemma matches_generated b s e :
  matches (generated rx) (Cursor b s) e <->
  b = true /\ at_bol e = false /\
  exists prefix spaces mid,
    s = prefix ++ spaces ++ mid ++ txt " DO NOT EDIT." ++ rest e /\
    prefix <> [] /\ forallb (fun x => mem x (txt "/*#")) prefix = true /\
    spaces <> [] /\ forallb (fun x => Ascii.eqb x " "%char) spaces = true /\
    forallb not_nl mid = true /\
    (rest e = [] \/ exists a, rest e = nl :: a).
Proof.
  unfold rx. cbn [generated compile_regex_patterns].
  rewrite matches_Cat. split.
  - intros ([b1 s1] & H1 & H). apply matches_Bol in H1 as [Hb [= <- <-]].
    simpl in Hb. apply matches_Cat in H as ([b2 s2] & H2 & H).
    apply (matches_Plus_single _ _ (single_Class _)) in H2
      as (prefix & Hp1 & Hp2 & -> & _).
    apply matches_Cat in H as ([b3 s3] & H3 & H).
    apply (matches_Plus_single _ _ (single_Lit _)) in H3
      as (spaces & Hs1 & Hs2 & Hs3 & _).
    apply matches_Cat in H as ([b4 s4] & H4 & H).
    apply (matches_Star_single _ _ single_Dot) in H4 as (mid & Hm1 & Hm2 & _).
    apply matches_Cat in H as ([b5 s5] & H5 & H).
    apply matches_lits in H5 as [H5 Hb5].
    apply matches_Eol in H as [-> Hend].
    simpl in *. subst. split; [reflexivity|]. split; [reflexivity|].
    exists prefix, spaces, mid. auto 10.
  - intros (-> & He & prefix & spaces & mid & -> & Hp1 & Hp2 & Hs1 & Hs2 & Hm & Hend).
    exists (Cursor true (prefix ++ spaces ++ mid ++ txt " DO NOT EDIT." ++ rest e)).
    split; [apply matches_Bol; auto|].
    apply matches_Cat.
    exists (Cursor (bol_after true prefix)
              (spaces ++ mid ++ txt " DO NOT EDIT." ++ rest e)).
    split; [apply (matches_Plus_single _ _ (single_Class _)); exists prefix; auto|].
    apply matches_Cat.
    exists (Cursor (bol_after (bol_after true prefix) spaces)
              (mid ++ txt " DO NOT EDIT." ++ rest e)).
    split; [apply (matches_Plus_single _ _ (single_Lit _)); exists spaces; auto|].
    apply matches_Cat.
    exists (Cursor (bol_after (bol_after (bol_after true prefix) spaces) mid)
              (txt " DO NOT EDIT." ++ rest e)).
    split; [apply (matches_Star_single _ _ single_Dot); exists mid; auto|].
    apply matches_Cat. exists e.
    split.
    + apply matches_lits. split; [reflexivity|]. rewrite He. reflexivity.
    + apply matches_Eol. auto.
Qed.

Lemma bol_after_snoc b a x : bol_after b (a ++ [x]) = Ascii.eqb x nl.
Proof.
  revert b. induction a as [|x' a IH]; intros b; [reflexivity|]. apply IH.
Qed.

Lemma bol_after_true a :
  bol_after true a = true <-> a = [] \/ exists b, a = b ++ [nl].
Proof.
  induction a as [|x a _] using rev_ind.
  - split; [left; reflexivity|reflexivity].
  - rewrite bol_after_snoc. split.
    + intros ->%Ascii.eqb_eq. right. exists a. reflexivity.
    + intros [H|[b H]]; [destruct a; discriminate|].
      apply app_inj_tail in H as [_ ->]. reflexivity.
Qed.

Lemma forallb_impl (p q : ascii -> bool) (s : str) :
  (forall x, p x = true -> q x = true) ->
  forallb p s = true -> forallb q s = true.
Proof.
  intros Hpq. rewrite !forallb_forall. auto.
Qed.

(** The file is taken for generated exactly when one of its lines is a
    marker line. *)
Lemma is_generated_file_marker data :
  is_generated_file data rx = true <->
  exists line, line_of line data /\ generated_marker line.
Proof.
  unfold is_generated_file. rewrite search_matches. split.
  - intros (a & s' & e & -> & Hm).
    apply matches_generated
      in Hm as (Hb & _ & prefix & spaces & mid & -> & Hp1 & Hp2 & Hs1 & Hs2 & Hm & He).
    exists (prefix ++ spaces ++ mid ++ txt " DO NOT EDIT."). split.
    + split.
      * assert (forallb not_nl prefix = true) as Hp.
        { revert Hp2. apply forallb_impl. intros x Hx. unfold not_nl.
          destruct (Ascii.eqb_spec x nl) as [->|]; [|reflexivity].
          vm_compute in Hx. discriminate. }
        assert (forallb not_nl spaces = true) as Hs.
        { revert Hs2. apply forallb_impl. intros x ->%Ascii.eqb_eq. reflexivity. }
        rewrite !forallb_app, Hp, Hs, Hm. reflexivity.
      * exists a, (rest e). rewrite <- !app_assoc. split; [reflexivity|].
        split; [apply bol_after_true, Hb|exact He].
    + exists prefix, spaces, mid. auto.
  - intros (line & (Hnl & before & after & -> & Hb & Ha)
              & prefix & spaces & mid & -> & Hp1 & Hp2 & Hs1 & Hs2).
    exists before, ((prefix ++ spaces ++ mid ++ txt " DO NOT EDIT.") ++ after),
      (Cursor false after).
    split; [reflexivity|]. apply matches_generated.
    split; [apply bol_after_true, Hb|]. split; [reflexivity|].
    exists prefix, spaces, mid. rewrite <- !app_assoc.
    rewrite !forallb_app in Hnl.
    apply andb_prop in Hnl as [_ [_ [Hm _]%andb_prop]%andb_prop].
    auto 10.
Qed.

End GeneratedMarker.

(** ** The claims *)

Lemma lookup_ref_missing (refs : gmap str (list str)) (extension filename : str) :
  refs !! extension = None -> refs !! basename filename = None ->
  lookup_ref refs extension filename = [].
Proof. unfold lookup_ref. intros -> ->. reflexivity. Qed.

(** C1, as amended: a readable file whose type key has no template, neither
    under its (lower-cased, possibly remapped) extension nor under its base
    name, is compared with the empty template: it passes, and nothing is
    printed. *)
Theorem no_template_passes (verbose : bool) (filename : str)
    (refs : gmap str (list str)) (rx : regexs) (data : str) :
  refs !! template_key (is_generated_file data rx) filename = None ->
  refs !! basename filename = None ->
  check_data verbose filename refs rx data = ([], true).
Proof.
  intros Hext Hbase.
  pose proof (lookup_ref_missing refs _ filename Hext Hbase) as Href.
  fold (reference refs rx filename data) in Href.
  rewrite check_data_compare.
  - unfold compared_header, normalized_header. rewrite Href. simpl.
    destruct (is_generated_file data rx); reflexivity.
  - rewrite Href. simpl. lia.
  - unfold normalized_header. rewrite Href. reflexivity.
Qed.

Lemma no_template_passes_witness :
  check_data false (txt "docs/README.md") Sample.refs Sample.rx
    (txt "Some notes") = ([], true).
Proof.
  apply no_template_passes; vm_compute; reflexivity.
Defined.

(** C1 as stated fails: a file of a type without a template does not fail,
    it passes. *)
Lemma no_template_does_not_fail :
  let filename := txt "docs/README.md" in
  let data := txt "Some notes" in
  Sample.refs !! template_key (is_generated_file data Sample.rx) filename = None /\
  Sample.refs !! basename filename = None /\
  verdict false filename Sample.refs Sample.rx data = true.
Proof. vm_compute. repeat split; reflexivity. Qed.

(** C2 does not hold of the code: the patterns are compiled with
    [re.MULTILINE], so a build-constraint block or a shebang that stands
    below the first line is removed as well, and the lines around it join
    up into a header that passes. *)
Theorem preamble_removed_below_the_top :
  let go_file :=
    Sample.text [txt "// Copyright 2020 The Authors."; txt "//go:build linux";
                 txt ""; txt "// Licensed under the License.";
                 txt "package doc"] in
  let sh_file :=
    Sample.text [txt "# Copyright 2020 The Authors."; txt "#!/bin/sh"; txt "";
                 txt "echo done"] in
  strip_preamble Sample.rx (txt "go") go_file =
    Sample.text [txt "// Copyright 2020 The Authors.";
                 txt "// Licensed under the License."; txt "package doc"] /\
  verdict false (txt "pkg/doc.go") Sample.refs Sample.rx go_file = true /\
  strip_preamble Sample.rx (txt "sh") sh_file =
    Sample.text [txt "# Copyright 2020 The Authors."; txt "echo done"].
Proof. vm_compute. repeat split; reflexivity. Qed.

(** C3, as amended: when the clock's year is 2014 or later (and has four
    digits), [date] matches a portion of a line exactly when the portion is
    the decimal text of a year from 2014 through the current year, a text of
    four digits; it does so wherever that text stands, also inside a longer
    run of digits. *)
Theorem date_matches_years (current_year : Z) :
  (2014 <= current_year <= 9999)%Z ->
  let rx := compile_regex_patterns current_year in
  (forall (b : bool) (p s' : str),
     matches_portion (date rx) b p s' <->
     exists y, (2014 <= y <= current_year)%Z /\ p = str_of_int y) /\
  (forall y, (2014 <= y <= current_year)%Z ->
     four_digits (str_of_int y) = true /\
     forall before after : str,
       Re.search (date rx) (before ++ str_of_int y ++ after) = true).
Proof.
  intros [Hlo Hhi] rx. split.
  - intros b p s'. unfold matches_portion. split.
    + intros (e & Hm & He). unfold rx in Hm.
      rewrite (match_at_date _ Hlo) in Hm.
      destruct (first_prefix (years current_year) (p ++ s'))
        as [[w s1]|] eqn:E; [|discriminate].
      injection Hm as <-. simpl in He. subst s1.
      apply ReFacts.first_prefix_Some in E as [Hw E].
      apply app_inv_tail in E. subst w. apply years_elem, Hw.
    + intros Hy. apply years_elem in Hy.
      exists (Re.Cursor false s'). split; [|reflexivity].
      apply (match_at_date_year _ Hlo Hhi), Hy.
  - intros y Hy. split; [apply str_of_int_four_digits; lia|].
    intros before after. apply ReFacts.search_true.
    exists before, (str_of_int y ++ after), (Re.Cursor false after).
    split; [reflexivity|].
    apply (match_at_date_year _ Hlo Hhi), years_elem. exists y. auto.
Qed.

Lemma date_matches_years_witness :
  matches_portion (date Sample.rx) false (txt "2020") (txt " The Authors.") /\
  Re.search (date Sample.rx) (txt "120145") = true.
Proof.
  assert (2014 <= 2024 <= 9999)%Z as H by lia.
  destruct (date_matches_years 2024 H) as [Hiff Hsearch]. split.
  - apply Hiff. exists 2020%Z. split; [lia|reflexivity].
  - assert (2014 <= 2014 <= 2024)%Z as Hy by lia.
    exact (proj2 (Hsearch 2014%Z Hy) (txt "1") (txt "5")).
Defined.

(** C3 as stated fails: [date] does match inside a longer run of digits. *)
Lemma date_matches_inside_digit_run :
  ~ (forall line : str,
       forallb is_digit line = true -> 4 < length line ->
       Re.search (date Sample.rx) line = false).
Proof.
  intros H. specialize (H (txt "120145") eq_refl).
  assert (4 < length (txt "120145")) as Hlen by (vm_compute; lia).
  specialize (H Hlen). vm_compute in H. discriminate.
Qed.

Lemma existsb_search_year (current_year : Z) (lines : list str) :
  existsb (Re.search (year (compile_regex_patterns current_year))) lines = false <->
  Forall (fun line => ~ contains (txt "YEAR") line) lines.
Proof.
  change (year (compile_regex_patterns current_year)) with (Re.lits (txt "YEAR")).
  rewrite Forall_forall. split.
  - intros H line Hin Hc. apply ReFacts.search_lits in Hc.
    assert (existsb (Re.search (Re.lits (txt "YEAR"))) lines = true) as Ht.
    { apply existsb_exists. exists line. split; [apply list_elem_of_In, Hin|exact Hc]. }
    congruence.
  - intros H. destruct (existsb _ lines) eqn:E; [|reflexivity].
    apply existsb_exists in E as (line & Hin & Hs). exfalso.
    apply (H line); [apply list_elem_of_In, Hin|].
    apply ReFacts.search_lits, Hs.
Qed.

Lemma map_sub_no_match (r : Re.regex) (repl : str) (lines : list str) :
  Forall (fun line => Re.search r line = false) lines ->
  map (Re.sub r repl) lines = lines.
Proof.
  induction 1 as [|line ls Hl _ IH]; [reflexivity|].
  cbn [map]. rewrite (ReFacts.sub_no_match _ _ _ Hl), IH. reflexivity.
Qed.

Lemma no_match_lines (r : Re.regex) (lines : list str) :
  existsb (Re.search r) lines = false ->
  Forall (fun line => Re.search r line = false) lines.
Proof.
  induction lines as [|line ls IH]; [constructor|].
  cbn [existsb]. intros [H1 H2]%orb_false_elim. constructor; auto.
Qed.

Lemma header_length_le (refs : gmap str (list str)) (rx : regexs)
    (filename data : str) (T : list str) :
  length T = length (reference refs rx filename data) ->
  length (normalized_header refs rx filename data) = length T ->
  length (reference refs rx filename data) <= length (normalized_lines rx filename data).
Proof.
  unfold normalized_header. rewrite length_take. lia.
Qed.

(** C4, as amended: a file whose normalized header equals its template line
    for line passes when no line of the template contains the text "YEAR"
    and, unless the file is generated, no line of the template contains a
    year that [date] matches. *)
Theorem identical_header_passes (verbose : bool) (filename : str)
    (refs : gmap str (list str)) (current_year : Z) (data : str) :
  let rx := compile_regex_patterns current_year in
  let ref := reference refs rx filename data in
  normalized_header refs rx filename data = ref ->
  Forall (fun line => ~ contains (txt "YEAR") line) ref ->
  (is_generated_file data rx = true \/
   Forall (fun line => Re.search (date rx) line = false) ref) ->
  verdict verbose filename refs rx data = true.
Proof.
  intros rx ref Hhead Hyear Hdate. unfold verdict.
  rewrite check_data_compare.
  - fold ref. unfold compared_header. rewrite Hhead.
    assert ((if is_generated_file data rx then ref
             else map (Re.sub (date rx) (txt "YEAR")) ref) = ref) as ->.
    { destruct (is_generated_file data rx); [reflexivity|].
      destruct Hdate as [|Hdate]; [discriminate|].
      apply map_sub_no_match, Hdate. }
    rewrite bool_decide_eq_true_2; reflexivity.
  - apply (header_length_le _ _ _ _ ref); [reflexivity|].
    rewrite Hhead. reflexivity.
  - rewrite Hhead. apply existsb_search_year, Hyear.
Qed.

Lemma identical_header_passes_witness :
  verdict false (txt "pkg/doc.go")
    (<[txt "go" := [txt "// Public domain."; txt ""]]> ∅) Sample.rx
    (Sample.text [txt "// Public domain."; txt ""; txt "package doc"]) = true.
Proof.
  apply (identical_header_passes false (txt "pkg/doc.go")
           (<[txt "go" := [txt "// Public domain."; txt ""]]> ∅) 2024).
  - vm_compute. reflexivity.
  - apply (existsb_search_year 2024). vm_compute. reflexivity.
  - right. apply no_match_lines. vm_compute. reflexivity.
Defined.

(** C4 as stated fails: a file whose header is its template, placeholder
    included, fails. *)
Lemma identical_header_with_placeholder_fails :
  let filename := txt "pkg/doc.go" in
  let data := Sample.text Sample.go_template in
  normalized_header Sample.refs Sample.rx filename data =
    reference Sample.refs Sample.rx filename data /\
  verdict false filename Sample.refs Sample.rx data = false.
Proof. vm_compute. split; reflexivity. Qed.

Lemma map_sub_fill_year (current_year y : Z) (T : list str) :
  (2014 <= y <= current_year)%Z -> (current_year <= 9999)%Z ->
  Forall (fun line =>
            Re.search (date (compile_regex_patterns current_year)) line = false /\
            digit_before_year line = false) T ->
  map (Re.sub (date (compile_regex_patterns current_year)) (txt "YEAR"))
    (map (fill_year (str_of_int y)) T) = T.
Proof.
  intros Hy Hhi. induction 1 as [|line ls [Hs Hd] _ IH]; [reflexivity|].
  cbn [map]. rewrite IH. f_equal.
  apply sub_fill_year; [lia|exact Hhi| |exact Hs|exact Hd].
  apply years_elem. exists y. split; [lia|reflexivity].
Qed.

Lemma fill_year_lines_no_placeholder (current_year y : Z) (T : list str) :
  (2014 <= y <= 9999)%Z ->
  existsb (Re.search (year (compile_regex_patterns current_year)))
    (map (fill_year (str_of_int y)) T) = false.
Proof.
  intros Hy. induction T as [|line ls IH]; [reflexivity|].
  cbn [map existsb]. rewrite IH, orb_false_r.
  apply fill_year_no_placeholder, str_of_int_four_digits, Hy.
Qed.

(** C5, as amended: for a template [T] whose lines contain no year that
    [date] matches and no decimal digit right before a "YEAR" placeholder,
    and a year [y] from 2014 through the current year, a file that is not
    generated and whose normalized header is [T] with every placeholder
    replaced by [y] passes. *)
Theorem year_round_trip (verbose : bool) (filename : str)
    (refs : gmap str (list str)) (current_year y : Z) (data : str) :
  let rx := compile_regex_patterns current_year in
  let T := reference refs rx filename data in
  (2014 <= y <= current_year)%Z ->
  (current_year <= 9999)%Z ->
  is_generated_file data rx = false ->
  Forall (fun line => Re.search (date rx) line = false /\
                      digit_before_year line = false) T ->
  normalized_header refs rx filename data = map (fill_year (str_of_int y)) T ->
  verdict verbose filename refs rx data = true.
Proof.
  intros rx T Hy Hhi Hgen HT Hhead. unfold verdict.
  rewrite check_data_compare.
  - fold T. unfold compared_header. rewrite Hgen, Hhead.
    unfold rx. rewrite (map_sub_fill_year _ _ _ Hy Hhi HT).
    rewrite bool_decide_eq_true_2; reflexivity.
  - apply (header_length_le _ _ _ _ T); [reflexivity|].
    rewrite Hhead, length_map. reflexivity.
  - rewrite Hhead. apply fill_year_lines_no_placeholder. lia.
Qed.

Lemma year_lines (r : Re.regex) (lines : list str) :
  forallb (fun line => negb (Re.search r line) && negb (digit_before_year line))
    lines = true ->
  Forall (fun line => Re.search r line = false /\ digit_before_year line = false)
    lines.
Proof.
  induction lines as [|line ls IH]; [constructor|].
  cbn [forallb]. intros [[H1 H2]%andb_prop H3]%andb_prop.
  constructor; [|auto]. split; apply negb_true_iff; assumption.
Qed.

Lemma year_round_trip_witness :
  verdict false (txt "pkg/doc.go") Sample.refs Sample.rx
    (Sample.text [txt "// Copyright 2020 The Authors.";
                  txt "// Licensed under the License.";
                  txt "package doc"]) = true.
Proof.
  apply (year_round_trip false (txt "pkg/doc.go") Sample.refs 2024 2020).
  - lia.
  - lia.
  - vm_compute. reflexivity.
  - apply year_lines. vm_compute. reflexivity.
  - vm_compute. reflexivity.
Defined.

(** C5 as stated fails: a template line that spells a year of the range
    comes back from the substitution with "YEAR" in its place. *)
Lemma year_round_trip_fails_on_literal_year :
  let T := [txt "// Copyright YEAR The Authors."; txt "// Since 2016."] in
  let refs : gmap str (list str) := <[txt "go" := T]> ∅ in
  let filename := txt "pkg/doc.go" in
  let data :=
    Sample.text [txt "// Copyright 2020 The Authors."; txt "// Since 2016."] in
  is_generated_file data Sample.rx = false /\
  reference refs Sample.rx filename data = T /\
  normalized_header refs Sample.rx filename data =
    map (fill_year (str_of_int 2020)) T /\
  verdict false filename refs Sample.rx data = false.
Proof. vm_compute. repeat split; reflexivity. Qed.

(** C6, as stated, fails on files with fewer lines than their template: a
    plain file and a generated file of one line, each with "YEAR" on that
    line, checked against a template of two lines, fail with one and the
    same diagnostic, the one of the size check. *)
Lemma short_files_share_the_size_diagnostic :
  let refs : gmap str (list str) :=
    <[txt "sh" := [txt "# Copyright YEAR The Authors."; txt "# Licensed."]]> ∅ in
  let filename := txt "run.sh" in
  let plain := Sample.text [txt "# Copyright YEAR The Authors."] in
  let generated := Sample.text [txt "# Made in YEAR. DO NOT EDIT."] in
  is_generated_file plain Sample.rx = false /\
  is_generated_file generated Sample.rx = true /\
  Exists (contains (txt "YEAR"))
    (normalized_header refs Sample.rx filename plain) /\
  Exists (contains (txt "YEAR"))
    (normalized_header refs Sample.rx filename generated) /\
  check_data false filename refs Sample.rx plain =
    ([Line Stdout (txt "File run.sh smaller than reference (1 < 2)")], false) /\
  check_data false filename refs Sample.rx generated =
    ([Line Stdout (txt "File run.sh smaller than reference (1 < 2)")], false).
Proof.
  intros refs filename plain generated.
  split; [vm_compute; reflexivity|].
  split; [vm_compute; reflexivity|].
  split.
  { apply Exists_cons_hd. exists (txt "# Copyright "), (txt " The Authors.").
    vm_compute. reflexivity. }
  split.
  { apply Exists_cons_hd. exists (txt "# Made in "), (txt ". DO NOT EDIT.").
    vm_compute. reflexivity. }
  split; vm_compute; reflexivity.
Qed.

(** C6, as amended: for a file with at least as many lines as its template,
    when a line of the normalized header (the candidate's lines within the
    template's window) contains the text "YEAR", the file fails and the
    comparison is not reached: the only output is one line, on the standard
    error in verbose mode and on the standard output otherwise, which says
    for a generated file that the YEAR field should not be there and for
    another file that the year of the date is missing; the two lines differ.
    A file with fewer lines than its template fails with the diagnostic of
    the size check alone. *)
Theorem year_guard_fails (verbose : bool) (filename : str)
    (refs : gmap str (list str)) (current_year : Z) (data : str) :
  let rx := compile_regex_patterns current_year in
  let gen := is_generated_file data rx in
  let ref := reference refs rx filename data in
  let lines := normalized_lines rx filename data in
  let to := if verbose then Stderr else Stdout in
  let in_generated :=
    txt "File " ++ filename ++
    txt " has the YEAR field, but it should not be in generated file" in
  let in_other :=
    txt "File " ++ filename ++
    txt " has the YEAR field, but is missing the year of date" in
  Exists (contains (txt "YEAR")) (normalized_header refs rx filename data) ->
  (length ref <= length lines ->
   check_data verbose filename refs rx data =
     ([Line to (if gen then in_generated else in_other)], false)) /\
  (length lines < length ref ->
   check_data verbose filename refs rx data =
     ([Line to
         (txt "File " ++ filename ++ txt " smaller than reference (" ++
          str_of_int (Z.of_nat (length lines)) ++ txt " < " ++
          str_of_int (Z.of_nat (length ref)) ++ txt ")")], false)) /\
  Line to in_generated <> Line to in_other.
Proof.
  intros rx gen ref lines to in_generated in_other Hex.
  assert (existsb (Re.search (year rx)) (normalized_header refs rx filename data)
          = true) as Hy.
  { destruct (existsb _ _) eqn:E; [reflexivity|].
    apply existsb_search_year in E. rewrite Forall_forall in E.
    apply Exists_exists in Hex as (line & Hin & Hc).
    destruct (E line Hin Hc). }
  split; [|split].
  - intros Hge. rewrite (check_data_year _ _ _ _ _ Hge Hy). fold gen.
    unfold msg_year, print, verbose_out, to.
    destruct verbose, gen; reflexivity.
  - intros Hlt. rewrite (check_data_smaller _ _ _ _ _ Hlt). fold lines ref.
    unfold msg_smaller, print, verbose_out, to.
    destruct verbose; reflexivity.
  - unfold in_generated, in_other. intros H. injection H as H.
    apply app_inv_head in H. discriminate.
Qed.

Lemma year_guard_fails_witness :
  check_data false (txt "pkg/doc.go") Sample.refs Sample.rx
    (Sample.text Sample.go_template) =
    ([Line Stdout
        (txt "File pkg/doc.go has the YEAR field, but is missing the year of date")],
     false) /\
  check_data true (txt "pkg/zz_generated.go") Sample.refs Sample.rx
    (Sample.text [txt "// Copyright YEAR The Authors.";
                  txt "// Code generated by a tool. DO NOT EDIT."]) =
    ([Line Stderr
        (txt "File pkg/zz_generated.go has the YEAR field, but it should not be in generated file")],
     false).
Proof.
  split.
  - etransitivity.
    + apply (proj1 (year_guard_fails false (txt "pkg/doc.go") Sample.refs 2024
                      (Sample.text Sample.go_template)
                      ltac:(apply Exists_cons_hd;
                            exists (txt "// Copyright "), (txt " The Authors.");
                            vm_compute; reflexivity))).
      vm_compute. lia.
    + vm_compute. reflexivity.
  - etransitivity.
    + apply (proj1 (year_guard_fails true (txt "pkg/zz_generated.go")
                      Sample.refs 2024
                      (Sample.text [txt "// Copyright YEAR The Authors.";
                                    txt "// Code generated by a tool. DO NOT EDIT."])
                      ltac:(apply Exists_cons_hd;
                            exists (txt "// Copyright "), (txt " The Authors.");
                            vm_compute; reflexivity))).
      vm_compute. lia.
    + vm_compute. reflexivity.
Defined.

(** C7: a file whose normalized text has fewer lines than its template
    fails, with the size diagnostic alone: neither the YEAR guard nor the
    substitution nor the comparison has a say.  Otherwise the header that is
    checked and compared is made of the first [len(ref)] lines of the
    candidate, as many lines as the whole template has, and the file passes
    exactly when none of them contains "YEAR" and, after the substitution,
    they equal the template. *)
Theorem size_check_first (verbose : bool) (filename : str)
    (refs : gmap str (list str)) (rx : regexs) (data : str) :
  let gen := is_generated_file data rx in
  let ref := reference refs rx filename data in
  let lines := normalized_lines rx filename data in
  let window := take (length ref) lines in
  (length lines < length ref ->
   check_data verbose filename refs rx data =
     ([print (msg_smaller filename (length lines) (length ref))
         (verbose_out verbose)], false)) /\
  (length ref <= length lines ->
   length window = length ref /\
   (verdict verbose filename refs rx data = true <->
    existsb (Re.search (year rx)) window = false /\
    ref = if gen then window
          else map (Re.sub (date rx) (txt "YEAR")) window)).
Proof.
  intros gen ref lines window. split.
  - apply check_data_smaller.
  - intros Hle. split; [unfold window; rewrite length_take; lia|].
    unfold verdict.
    destruct (existsb (Re.search (year rx)) window) eqn:Hy.
    + rewrite (check_data_year _ _ _ _ _ Hle Hy). simpl.
      split; [discriminate|intros [? _]; discriminate].
    + rewrite (check_data_compare _ _ _ _ _ Hle Hy).
      fold ref. unfold compared_header. fold gen.
      fold (normalized_header refs rx filename data).
      change (normalized_header refs rx filename data) with window.
      case_bool_decide as E; simpl.
      * split; [intros _; split; [reflexivity|exact E]|reflexivity].
      * split; [discriminate|intros [_ E']; contradiction].
Qed.

Lemma size_check_first_witness :
  check_data false (txt "pkg/doc.go") Sample.refs Sample.rx
    (Sample.text [txt "// Copyright YEAR The Authors."]) =
  ([Line Stdout (txt "File pkg/doc.go smaller than reference (1 < 2)")], false) /\
  verdict false (txt "pkg/doc.go") Sample.refs Sample.rx
    (Sample.text [txt "// Copyright 2019 The Authors.";
                  txt "// Licensed under the License.";
                  txt "package doc"; txt "// Copyright YEAR"]) = true.
Proof.
  split.
  - etransitivity.
    + apply (proj1 (size_check_first false (txt "pkg/doc.go") Sample.refs
                      Sample.rx
                      (Sample.text [txt "// Copyright YEAR The Authors."]))).
      vm_compute. lia.
    + vm_compute. reflexivity.
  - apply (proj2 (size_check_first false (txt "pkg/doc.go") Sample.refs
                    Sample.rx _)).
    + vm_compute. lia.
    + vm_compute. split; reflexivity.
Defined.

(** C8: whether a file is generated is decided on the text as it was read,
    before any preamble is removed: it is generated exactly when one of its
    lines is a marker line "<comment-prefix> ... DO NOT EDIT.".  The
    template is then looked up under "generatego" for a generated file of
    extension "go" and under the extension otherwise, and a generated file
    passes exactly when its header equals the template as it stands, without
    any year replaced. *)
Theorem generated_files (verbose : bool) (filename : str)
    (refs : gmap str (list str)) (current_year : Z) (data : str) :
  let rx := compile_regex_patterns current_year in
  let gen := is_generated_file data rx in
  let extension := get_file_extension filename in
  let key :=
    if gen && bool_decide (extension = txt "go") then txt "generatego"
    else extension in
  let ref := lookup_ref refs key filename in
  let lines := splitlines (strip_preamble rx key data) in
  (gen = true <-> exists line, line_of line data /\ generated_marker line) /\
  reference refs rx filename data = ref /\
  normalized_lines rx filename data = lines /\
  (gen = true ->
   (verdict verbose filename refs rx data = true <->
    length ref <= length lines /\
    Forall (fun line => ~ contains (txt "YEAR") line) (take (length ref) lines) /\
    ref = take (length ref) lines)).
Proof.
  intros rx gen extension key ref lines.
  split; [apply is_generated_file_marker|].
  split; [reflexivity|]. split; [reflexivity|].
  intros Hgen. unfold verdict.
  change ref with (reference refs rx filename data).
  change lines with (normalized_lines rx filename data).
  set (ref' := reference refs rx filename data).
  set (lines' := normalized_lines rx filename data).
  destruct (Nat.lt_ge_cases (length lines') (length ref')) as [Hlt|Hge].
  - rewrite (check_data_smaller _ _ _ _ _ Hlt). simpl.
    split; [discriminate|intros [? _]; lia].
  - rewrite <- (existsb_search_year current_year).
    fold rx.
    change (take (length ref') lines') with (normalized_header refs rx filename data).
    destruct (existsb (Re.search (year rx)) (normalized_header refs rx filename data))
      eqn:Hy.
    + rewrite (check_data_year _ _ _ _ _ Hge Hy). simpl.
      split; [discriminate|intros (_ & ? & _); discriminate].
    + rewrite (check_data_compare _ _ _ _ _ Hge Hy). fold ref'.
      unfold compared_header. fold gen. rewrite Hgen.
      case_bool_decide as E; simpl.
      * split; [auto|reflexivity].
      * split; [discriminate|intros (_ & _ & ?); contradiction].
Qed.

Lemma generated_files_witness :
  let data := Sample.text [txt "// Code generated by tool. DO NOT EDIT.";
                           txt "// Copyright 2020 The Authors.";
                           txt "package doc"] in
  is_generated_file data Sample.rx = true /\
  reference Sample.refs Sample.rx (txt "pkg/zz_generated.go") data =
    [txt "// Copyright The Authors."] /\
  verdict false (txt "pkg/zz_generated.go") Sample.refs Sample.rx data = false.
Proof.
  intros data.
  pose proof (generated_files false (txt "pkg/zz_generated.go") Sample.refs
                2024 data) as (Hmarker & Href & _ & Hverdict).
  assert (is_generated_file data Sample.rx = true) as Hgen.
  { apply Hmarker. exists (txt "// Code generated by tool. DO NOT EDIT.").
    split.
    - split; [reflexivity|].
      exists [], (nl :: Sample.text [txt "// Copyright 2020 The Authors.";
                                     txt "package doc"]).
      split; [reflexivity|]. split; [left; reflexivity|right; eauto].
    - exists (txt "//"), (txt " "), (txt "Code generated by tool.").
      repeat split; discriminate. }
  split; [exact Hgen|]. split.
  - etransitivity; [exact Href|]. vm_compute. reflexivity.
  - apply not_true_is_false. intros Hv. apply (Hverdict Hgen) in Hv as (_ & _ & Hv).
    vm_compute in Hv. discriminate.
Defined.

(** The marker counts where it stands in the text that was read, also in a
    preamble that is removed afterwards. *)
Lemma generated_status_of_unstripped_text :
  let data := Sample.text [txt "// +build DO NOT EDIT."; txt "";
                           txt "// Copyright The Authors."] in
  is_generated_file data Sample.rx = true /\
  is_generated_file (strip_preamble Sample.rx (txt "generatego") data) Sample.rx
    = false /\
  verdict false (txt "pkg/zz_generated.go") Sample.refs Sample.rx data = true.
Proof. vm_compute. repeat split; reflexivity. Qed.

(** C9 does not hold of the code: without [--verbose] the diagnostics are
    not dropped, [print(..., file=None)] writes them to the standard output;
    only the diff is left out. *)
Theorem quiet_mode_prints_diagnostics :
  main false 2024 sample_fs Sample.refs
    [txt "gone.go"; txt "short.go"; txt "year.go"; txt "other.go"; txt "good.go"] =
  ([Line Stdout (txt "Unable to open gone.go: [Errno 2] No such file or directory: 'gone.go'");
    Line Stdout (txt "Failed: gone.go");
    Line Stdout (txt "File short.go smaller than reference (1 < 2)");
    Line Stdout (txt "Failed: short.go");
    Line Stdout (txt "File year.go has the YEAR field, but is missing the year of date");
    Line Stdout (txt "Failed: year.go");
    Line Stdout (txt "Header in other.go does not match reference. Showing diff:");
    Line Stdout (txt "Failed: other.go")],
   Return 0%Z).
Proof. vm_compute. reflexivity. Qed.

(** Without [--verbose] every failing file has its diagnostic on the
    standard output. *)
Lemma quiet_failure_diagnostic (filename : str) (refs : gmap str (list str))
    (rx : regexs) (data : str) :
  verdict false filename refs rx data = false ->
  exists msg, output false filename refs rx data = [Line Stdout msg].
Proof.
  unfold verdict, output.
  destruct (Nat.lt_ge_cases (length (normalized_lines rx filename data))
              (length (reference refs rx filename data))) as [Hlt|Hge].
  - rewrite (check_data_smaller _ _ _ _ _ Hlt). eauto.
  - destruct (existsb (Re.search (year rx)) (normalized_header refs rx filename data))
      eqn:Hy.
    + rewrite (check_data_year _ _ _ _ _ Hge Hy). eauto.
    + rewrite (check_data_compare _ _ _ _ _ Hge Hy).
      case_bool_decide; [discriminate|]. eauto.
Qed.

(** C10: an [OSError] on opening a file makes that file fail, with its
    diagnostic, and the loop goes on with the next file; any other exception
    on reading a file leaves [file_passes_check] and ends the loop: the
    files after it are not checked. *)
Theorem only_oserror_is_contained (verbose : bool) (fs : str -> read_result)
    (refs : gmap str (list str)) (rx : regexs) (filename : str) :
  (forall msg, fs filename = RaisesOSError msg ->
     file_passes_check verbose (fs filename) filename refs rx =
       ([print (msg_unable filename msg) (verbose_out verbose)], Return false) /\
     forall files,
       check_files verbose fs refs rx (filename :: files) =
         (print (msg_unable filename msg) (verbose_out verbose) ::
          Line Stdout (txt "Failed: " ++ filename) ::
          fst (check_files verbose fs refs rx files),
          snd (check_files verbose fs refs rx files))) /\
  (forall exc, fs filename = RaisesOther exc ->
     file_passes_check verbose (fs filename) filename refs rx = ([], Raise exc) /\
     forall before after out,
       check_files verbose fs refs rx before = (out, Return tt) ->
       check_files verbose fs refs rx (before ++ filename :: after) =
         (out, Raise exc)).
Proof.
  split.
  - intros msg Hfs. rewrite Hfs. split; [reflexivity|].
    intros files. cbn [check_files]. rewrite Hfs. cbn [file_passes_check].
    destruct (check_files verbose fs refs rx files) as [out' r]. reflexivity.
  - intros exc Hfs. rewrite Hfs. split; [reflexivity|].
    intros before. induction before as [|f before IH]; intros after out Hb.
    + injection Hb as <-. cbn [app check_files]. rewrite Hfs. reflexivity.
    + cbn [app check_files] in Hb |- *.
      destruct (file_passes_check verbose (fs f) f refs rx) as [o [passed|e]];
        [|discriminate].
      destruct (check_files verbose fs refs rx before) as [o' [[]|e]] eqn:E;
        [|discriminate].
      injection Hb as <-. rewrite (IH after o' eq_refl). reflexivity.
Qed.

Lemma only_oserror_is_contained_witness :
  check_files true sample_fs Sample.refs Sample.rx
    [txt "gone.go"; txt "good.go"] =
    ([Line Stderr (txt "Unable to open gone.go: [Errno 2] No such file or directory: 'gone.go'");
      Line Stdout (txt "Failed: gone.go")], Return tt) /\
  check_files true sample_fs Sample.refs Sample.rx
    [txt "good.go"; txt "binary.go"; txt "short.go"] =
    ([], Raise (txt "'utf-8' codec can't decode byte 0xff in position 0: invalid start byte")).
Proof.
  split.
  - etransitivity.
    + apply (proj2 (proj1 (only_oserror_is_contained true sample_fs Sample.refs
                             Sample.rx (txt "gone.go")) _ eq_refl)
               [txt "good.go"]).
    + vm_compute. reflexivity.
  - apply (proj2 (proj2 (only_oserror_is_contained true sample_fs Sample.refs
                           Sample.rx (txt "binary.go")) _ eq_refl)
             [txt "good.go"] [txt "short.go"] []).
    vm_compute. reflexivity.
Defined.

(** * Further properties *)

(** ** Paths *)

Module PathFacts.

Lemma rfind_from_app ch i found (a b : str) :
  rfind_from ch i found (a ++ b) =
    rfind_from ch (i + Z.of_nat (length a)) (rfind_from ch i found a) b.
Proof.
  revert i found. induction a as [|x a IH]; intros i found; simpl.
  - f_equal. lia.
  - rewrite IH. f_equal. lia.
Qed.

Lemma rfind_from_absent ch i found (s : str) :
  ch ∉ s -> rfind_from ch i found s = found.
Proof.
  revert i found. induction s as [|x s IH]; intros i found Hs; [reflexivity|].
  apply not_elem_of_cons in Hs as [Hx Hs]. simpl.
  destruct (Ascii.eqb_spec x ch) as [->|_]; [contradiction|]. apply IH, Hs.
Qed.

Lemma rfind_absent ch (s : str) : ch ∉ s -> rfind ch s = (-1)%Z.
Proof. apply rfind_from_absent. Qed.

(** The index of the last occurrence. *)
Lemma rfind_last ch (a b : str) :
  ch ∉ b -> rfind ch (a ++ ch :: b) = Z.of_nat (length a).
Proof.
  intros Hb. unfold rfind. rewrite rfind_from_app. simpl.
  rewrite Ascii.eqb_refl. apply rfind_from_absent, Hb.
Qed.

(** A text has a last occurrence of [ch], or none. *)
Lemma last_occurrence ch (s : str) :
  ch ∉ s \/ exists a b, s = a ++ ch :: b /\ ch ∉ b.
Proof.
  induction s as [|x s [IH|(a & b & -> & Hb)]].
  - left. apply not_elem_of_nil.
  - destruct (Ascii.eqb_spec x ch) as [->|Hne].
    + right. exists [], s. auto.
    + left. apply not_elem_of_cons. auto.
  - right. exists (x :: a), b. auto.
Qed.

Lemma slice_from_app (a b : str) : slice_from (Z.of_nat (length a)) (a ++ b) = b.
Proof.
  unfold slice_from. rewrite Nat2Z.id. apply drop_app_length.
Qed.

Lemma slice_app (a b c : str) :
  slice (Z.of_nat (length a)) (Z.of_nat (length a + length b)) (a ++ b ++ c) = b.
Proof.
  unfold slice. rewrite !Nat2Z.id, drop_app_length.
  replace (length a + length b - length a) with (length b) by lia.
  apply take_app_length.
Qed.

(** [basename] is the text after the last separator. *)
Lemma basename_after_sep (a b : str) : sep ∉ b -> basename (a ++ sep :: b) = b.
Proof.
  intros Hb. unfold basename. rewrite (rfind_last _ _ _ Hb).
  replace (Z.of_nat (length a) + 1)%Z with (Z.of_nat (length (a ++ [sep])))
    by (rewrite length_app; simpl; lia).
  rewrite (cons_middle sep a b), app_assoc. apply slice_from_app.
Qed.

Lemma basename_plain (b : str) : sep ∉ b -> basename b = b.
Proof.
  intros Hb. unfold basename. rewrite (rfind_absent _ _ Hb). reflexivity.
Qed.

Lemma basename_no_sep (p : str) : sep ∉ basename p.
Proof.
  destruct (last_occurrence sep p) as [H|(a & b & -> & Hb)].
  - rewrite basename_plain; assumption.
  - rewrite basename_after_sep; assumption.
Qed.

(** [s.split(".")[-1]] is the text after the last dot. *)
Lemma after_last_dot_app (a b : str) :
  extsep ∉ b -> after_last_dot (a ++ extsep :: b) = b.
Proof.
  intros Hb. unfold after_last_dot. rewrite (rfind_last _ _ _ Hb).
  replace (Z.of_nat (length a) + 1)%Z with (Z.of_nat (length (a ++ [extsep])))
    by (rewrite length_app; simpl; lia).
  rewrite (cons_middle extsep a b), app_assoc. apply slice_from_app.
Qed.

Lemma after_last_dot_plain (b : str) : extsep ∉ b -> after_last_dot b = b.
Proof.
  intros Hb. unfold after_last_dot. rewrite (rfind_absent _ _ Hb). reflexivity.
Qed.

Lemma after_last_dot_no_dot (s : str) : extsep ∉ after_last_dot s.
Proof.
  destruct (last_occurrence extsep s) as [H|(a & b & -> & Hb)].
  - rewrite after_last_dot_plain; assumption.
  - rewrite after_last_dot_app; assumption.
Qed.

Lemma rfind_bounds ch (s : str) : (-1 <= rfind ch s < Z.of_nat (length s))%Z.
Proof.
  destruct (last_occurrence ch s) as [H|(a & b & -> & Hb)].
  - rewrite (rfind_absent _ _ H). lia.
  - rewrite (rfind_last _ _ _ Hb), length_app. simpl. lia.
Qed.

Lemma rfind_app_absent ch (a b : str) : ch ∉ b -> rfind ch (a ++ b) = rfind ch a.
Proof.
  intros Hb. unfold rfind. rewrite rfind_from_app. apply rfind_from_absent, Hb.
Qed.

Lemma rfind_app_present ch (a b : str) :
  ch ∈ b -> rfind ch (a ++ b) = (Z.of_nat (length a) + rfind ch b)%Z.
Proof.
  intros Hin. destruct (last_occurrence ch b) as [H|(b1 & b2 & -> & Hb)];
    [contradiction|].
  rewrite app_assoc, !(rfind_last _ _ _ Hb), length_app. lia.
Qed.

(** The extension of a path is the extension of its last component. *)
Lemma splitext_ext_component (a b : str) :
  sep ∉ b -> splitext_ext (a ++ sep :: b) = splitext_ext b.
Proof.
  intros Hb. unfold splitext_ext.
  rewrite (rfind_last _ _ _ Hb), (rfind_absent _ _ Hb).
  destruct (decide (extsep ∈ b)) as [Hin|Hnot].
  - rewrite (cons_middle sep a b), app_assoc.
    rewrite (rfind_app_present _ _ _ Hin).
    pose proof (rfind_bounds extsep b) as Hr.
    assert (0 <= rfind extsep b)%Z as Hr0.
    { destruct (last_occurrence extsep b) as [H|(b1 & b2 & -> & Hb2)];
        [contradiction|]. rewrite (rfind_last _ _ _ Hb2). lia. }
    rewrite length_app. simpl length.
    destruct (Z.ltb_spec (Z.of_nat (length a)) (Z.of_nat (length a + 1) + rfind extsep b));
      [|lia].
    destruct (Z.ltb_spec (-1) (rfind extsep b)); [|lia].
    unfold slice, slice_from.
    replace (Z.to_nat (Z.of_nat (length a) + 1)) with (length (a ++ [sep]))
      by (rewrite length_app; simpl; lia).
    replace (Z.to_nat (Z.of_nat (length a + 1) + rfind extsep b))
      with (length (a ++ [sep]) + Z.to_nat (rfind extsep b))
      by (rewrite length_app; simpl; lia).
    rewrite <- !drop_drop, !drop_app_length.
    replace (length (a ++ [sep]) + Z.to_nat (rfind extsep b) - length (a ++ [sep]))
      with (Z.to_nat (rfind extsep b) - Z.to_nat (-1 + 1)) by lia.
    reflexivity.
  - assert (extsep ∉ sep :: b) as Hnot'.
    { apply not_elem_of_cons. split; [discriminate|exact Hnot]. }
    rewrite (rfind_app_absent _ _ _ Hnot'), (rfind_absent _ _ Hnot).
    pose proof (rfind_bounds extsep a) as Hr.
    destruct (Z.ltb_spec (Z.of_nat (length a)) (rfind extsep a)); [lia|].
    reflexivity.
Qed.

Lemma get_file_extension_basename (p : str) :
  get_file_extension (basename p) = get_file_extension p.
Proof.
  unfold get_file_extension.
  destruct (last_occurrence sep p) as [H|(a & b & -> & Hb)].
  - rewrite basename_plain; [reflexivity|assumption].
  - rewrite basename_after_sep, splitext_ext_component; [reflexivity| |]; assumption.
Qed.

End PathFacts.

Section Extensions.
Import PathFacts.

Lemma lower_char_idempotent c : lower_char (lower_char c) = lower_char c.
Proof. destruct c as [[] [] [] [] [] [] [] []]; reflexivity. Qed.

Lemma lower_char_keeps c x :
  (x = sep \/ x = extsep) -> lower_char c = x -> c = x.
Proof.
  intros [->| ->]; destruct c as [[] [] [] [] [] [] [] []];
    intros H; vm_compute in H; try discriminate H; reflexivity.
Qed.

Lemma lower_absent x (s : str) :
  (x = sep \/ x = extsep) -> x ∉ s -> x ∉ lower s.
Proof.
  intros Hx Hs Hin. unfold lower in Hin.
  apply list_elem_of_fmap in Hin as (c & Hc & Hin).
  symmetry in Hc. apply (lower_char_keeps _ _ Hx) in Hc. subst c. contradiction.
Qed.

Lemma lower_idempotent (s : str) : lower (lower s) = lower s.
Proof.
  unfold lower. rewrite map_map. apply map_ext. apply lower_char_idempotent.
Qed.

Lemma slice_from_subset x i (s : str) : x ∈ slice_from i s -> x ∈ s.
Proof. unfold slice_from. apply subseteq_drop. Qed.

Lemma splitext_ext_subset x (p : str) : x ∈ splitext_ext p -> x ∈ p.
Proof.
  unfold splitext_ext. destruct (_ <? _)%Z; [|intros H; inversion H].
  destruct (existsb _ _); [apply slice_from_subset|intros H; inversion H].
Qed.

Lemma extension_no_sep (p : str) : sep ∉ get_file_extension p.
Proof.
  rewrite <- get_file_extension_basename. unfold get_file_extension.
  apply lower_absent; [auto|]. intros H.
  apply slice_from_subset, splitext_ext_subset in H.
  exact (basename_no_sep p H).
Qed.

Lemma extension_no_dot (p : str) : extsep ∉ get_file_extension p.
Proof.
  unfold get_file_extension. apply lower_absent; [auto|].
  apply after_last_dot_no_dot.
Qed.

Lemma extension_lower (p : str) :
  lower (get_file_extension p) = get_file_extension p.
Proof. apply lower_idempotent. Qed.

Lemma slice_prefix (b c : str) : slice (-1 + 1) (Z.of_nat (length b)) (b ++ c) = b.
Proof.
  unfold slice. simpl. rewrite Nat2Z.id, Nat.sub_0_r. apply take_app_length.
Qed.

Lemma extension_of_component (stem ext : str) :
  sep ∉ stem -> (exists x, x ∈ stem /\ x <> extsep) ->
  sep ∉ ext -> extsep ∉ ext ->
  get_file_extension (stem ++ extsep :: ext) = lower ext.
Proof.
  intros Hs (x & Hx & Hne) He Hd. unfold get_file_extension. f_equal.
  unfold splitext_ext.
  assert (sep ∉ stem ++ extsep :: ext) as Hsep.
  { rewrite elem_of_app, elem_of_cons. intros [?|[?|?]]; try contradiction.
    discriminate. }
  rewrite (rfind_absent _ _ Hsep), (rfind_last _ _ _ Hd).
  assert (0 < length stem) as Hlen by (destruct stem; [inversion Hx|simpl; lia]).
  destruct (Z.ltb_spec (-1) (Z.of_nat (length stem))); [|lia].
  rewrite slice_prefix.
  assert (existsb (fun x => negb (Ascii.eqb x extsep)) stem = true) as ->.
  { apply existsb_exists. exists x. split; [apply list_elem_of_In, Hx|].
    apply negb_true_iff, Ascii.eqb_neq, Hne. }
  rewrite (cons_middle extsep stem ext), slice_from_app.
  apply (after_last_dot_app [] ext Hd).
Qed.

Lemma no_extension_of_component (dots rest : str) :
  sep ∉ dots ++ rest -> Forall (fun x => x = extsep) dots -> extsep ∉ rest ->
  get_file_extension (dots ++ rest) = [].
Proof.
  intros Hsep Hdots Hrest. unfold get_file_extension, splitext_ext.
  rewrite (rfind_absent _ _ Hsep).
  destruct dots as [|d ds _] using rev_ind.
  - simpl. rewrite (rfind_absent _ _ Hrest). reflexivity.
  - apply Forall_app in Hdots as [Hds Hd]. inversion Hd; subst.
    rewrite <- app_assoc. simpl. rewrite (rfind_last _ _ _ Hrest).
    destruct (Z.ltb_spec (-1) (Z.of_nat (length ds))); [|lia].
    rewrite slice_prefix.
    assert (existsb (fun x => negb (Ascii.eqb x extsep)) ds = false) as ->.
    { clear -Hds. induction Hds as [|x l -> _ IH]; [reflexivity|].
      simpl. exact IH. }
    reflexivity.
Qed.

End Extensions.

Lemma absent_check x (s : str) :
  forallb (fun y => negb (Ascii.eqb y x)) s = true -> x ∉ s.
Proof.
  rewrite forallb_forall. intros H Hin. apply list_elem_of_In, H in Hin.
  rewrite Ascii.eqb_refl in Hin. discriminate.
Qed.

(** X1: the extension of a file [stem.ext], in any directory, is [ext] in
    lower case, when the stem has a character other than a dot. *)
Theorem extension_of_named_file (pre stem ext : str) :
  dir_prefix pre -> sep ∉ stem -> (exists x, x ∈ stem /\ x <> extsep) ->
  sep ∉ ext -> extsep ∉ ext ->
  get_file_extension (pre ++ stem ++ extsep :: ext) = lower ext.
Proof.
  intros Hpre Hs Hx He Hd.
  rewrite <- PathFacts.get_file_extension_basename.
  assert (sep ∉ stem ++ extsep :: ext) as Hsep.
  { rewrite elem_of_app, elem_of_cons. intros [?|[?|?]]; try contradiction.
    discriminate. }
  assert (basename (pre ++ stem ++ extsep :: ext) = stem ++ extsep :: ext) as ->.
  { destruct Hpre as [->|[d ->]].
    - apply PathFacts.basename_plain, Hsep.
    - rewrite <- app_assoc. apply PathFacts.basename_after_sep, Hsep. }
  apply extension_of_component; assumption.
Qed.

Lemma extension_of_named_file_witness :
  get_file_extension (txt "pkg/api/zz.Types.GO") = txt "go".
Proof.
  apply (extension_of_named_file (txt "pkg/api/") (txt "zz.Types") (txt "GO")).
  - right. exists (txt "pkg/api"). reflexivity.
  - apply absent_check. reflexivity.
  - exists "z"%char. split; [left|discriminate].
  - apply absent_check. reflexivity.
  - apply absent_check. reflexivity.
Defined.

(** X2: a file whose name has no dot after its leading dots (Makefile,
    .gitignore) has the empty extension, and its base name is the name: the
    template it is checked against is the one filed under the empty key when
    there is one, else the one filed under its name, else the empty
    template. *)
Theorem extension_of_dotless_file (pre dots rest : str) :
  dir_prefix pre -> sep ∉ dots ++ rest ->
  Forall (fun x => x = extsep) dots -> extsep ∉ rest ->
  get_file_extension (pre ++ dots ++ rest) = [] /\
  basename (pre ++ dots ++ rest) = dots ++ rest /\
  forall (refs : gmap str (list str)) (rx : regexs) (data : str),
    reference refs rx (pre ++ dots ++ rest) data =
      match refs !! [] with
      | Some template => template
      | None => default [] (refs !! (dots ++ rest))
      end.
Proof.
  intros Hpre Hsep Hdots Hrest.
  assert (basename (pre ++ dots ++ rest) = dots ++ rest) as Hb.
  { destruct Hpre as [->|[d ->]].
    - apply PathFacts.basename_plain, Hsep.
    - rewrite <- app_assoc. apply PathFacts.basename_after_sep, Hsep. }
  assert (get_file_extension (pre ++ dots ++ rest) = []) as He.
  { rewrite <- PathFacts.get_file_extension_basename, Hb.
    apply no_extension_of_component; assumption. }
  split; [exact He|]. split; [exact Hb|].
  intros refs rx data. unfold reference, template_key, lookup_ref.
  rewrite He, Hb.
  rewrite (bool_decide_eq_false_2 ([] = txt "go")) by discriminate.
  rewrite andb_false_r. destruct (refs !! []); reflexivity.
Qed.

Lemma extension_of_dotless_file_witness :
  get_file_extension (txt "build/.gitignore") = [] /\
  basename (txt "build/.gitignore") = txt ".gitignore" /\
  reference (<[txt ".gitignore" := [txt "# Ignored."]]> Sample.refs) Sample.rx
    (txt "build/.gitignore") (txt "# Ignored.") = [txt "# Ignored."].
Proof.
  destruct (extension_of_dotless_file (txt "build/") (txt ".") (txt "gitignore"))
    as (He & Hb & Hr).
  - right. exists (txt "build"). reflexivity.
  - apply absent_check. reflexivity.
  - repeat constructor.
  - apply absent_check. reflexivity.
  - split; [exact He|]. split; [exact Hb|].
    etransitivity; [apply Hr|]. vm_compute. reflexivity.
Defined.

(** X3: an extension never contains a dot or a path separator, and it is in
    lower case. *)
Theorem extension_shape (filename : str) :
  (extsep ∉ get_file_extension filename) /\
  (sep ∉ get_file_extension filename) /\
  lower (get_file_extension filename) = get_file_extension filename.
Proof.
  split; [apply extension_no_dot|]. split; [apply extension_no_sep|].
  apply extension_lower.
Qed.

(** X4: the template that a file is compared with depends on the last
    component of its path only, not on its directory. *)
Theorem template_of_last_component (refs : gmap str (list str)) (rx : regexs)
    (filename data : str) :
  reference refs rx filename data = reference refs rx (basename filename) data.
Proof.
  unfold reference, template_key, lookup_ref.
  rewrite PathFacts.get_file_extension_basename.
  rewrite (PathFacts.basename_plain (basename filename));
    [reflexivity|apply PathFacts.basename_no_sep].
Qed.

(** X5: a template key that is not in lower case is never the key of an
    extension: its template can only be reached through the base name. *)
Theorem uppercase_key_not_by_extension (gen : bool) (filename k : str) :
  lower k <> k -> template_key gen filename <> k.
Proof.
  intros Hk Heq. apply Hk. rewrite <- Heq. unfold template_key.
  destruct (gen && _); [reflexivity|apply extension_lower].
Qed.

Lemma uppercase_key_not_by_extension_witness :
  template_key false (txt "build/rules.Makefile") <> txt "Makefile".
Proof.
  apply uppercase_key_not_by_extension. vm_compute. discriminate.
Defined.

(** ** Lines *)

Lemma splitlines_from_lines (n : nat) :
  forall (cur s : str),
    length s <= n -> one_line cur ->
    Forall one_line (splitlines_from cur s).
Proof.
  induction n as [|n IH]; intros cur s Hlen Hcur.
  - destruct s; [|simpl in Hlen; lia]. simpl.
    destruct cur; [constructor|]. repeat constructor.
    apply Forall_rev, Hcur.
  - destruct s as [|c s]; simpl.
    + destruct cur; [constructor|]. repeat constructor. apply Forall_rev, Hcur.
    + simpl in Hlen.
      assert (one_line (rev cur)) as Hrev by apply Forall_rev, Hcur.
      assert (Forall one_line (splitlines_from [] s)) as Hs
        by (apply IH; [lia|constructor]).
      destruct (is_linebreak c) eqn:Hc.
      * destruct (Ascii.eqb c cr); [|constructor; assumption].
        destruct s as [|c' s']; [constructor; assumption|].
        destruct (Ascii.eqb c' nl); [|constructor; assumption].
        constructor; [assumption|]. apply IH; [simpl in Hlen; lia|constructor].
      * apply IH; [lia|]. constructor; assumption.
Qed.

Lemma splitlines_lines (s : str) : Forall one_line (splitlines s).
Proof.
  apply (splitlines_from_lines (length s)); [lia|constructor].
Qed.

(** X6: no line that [splitlines] gives contains a line boundary: neither a
    template line nor a line of a checked file does. *)
Theorem splitlines_one_line (s : str) : Forall one_line (splitlines s).
Proof.
  unfold splitlines. apply (splitlines_from_lines (length s)).
  - lia.
  - constructor.
Qed.

Lemma splitlines_from_line (cur l rest : str) :
  one_line l ->
  splitlines_from cur (l ++ nl :: rest) = (rev cur ++ l) :: splitlines_from [] rest.
Proof.
  revert cur. induction l as [|x l IH]; intros cur Hl.
  - simpl. rewrite app_nil_r. reflexivity.
  - inversion Hl as [|? ? Hx Hl']; subst. cbn [app splitlines_from].
    rewrite Hx, (IH (x :: cur) Hl'). simpl. rewrite <- app_assoc. reflexivity.
Qed.

Lemma splitlines_from_last (cur l : str) :
  one_line l -> rev cur ++ l <> [] ->
  splitlines_from cur l = [rev cur ++ l].
Proof.
  revert cur. induction l as [|x l IH]; intros cur Hl Hne.
  - simpl. rewrite app_nil_r in *. destruct cur; [contradiction|reflexivity].
  - inversion Hl as [|? ? Hx Hl']; subst. cbn [splitlines_from].
    rewrite Hx, (IH (x :: cur) Hl').
    + simpl. rewrite <- app_assoc. reflexivity.
    + simpl. rewrite <- app_assoc. exact Hne.
Qed.

(** X7: a text made of lines, each followed by a newline, splits back into
    these lines; the newline after the last line may be missing when that
    line is not empty. *)
Theorem splitlines_of_lines (lines : list str) (l : str) :
  Forall one_line lines -> one_line l -> l <> [] ->
  splitlines (concat (map (fun l => l ++ [nl]) lines)) = lines /\
  splitlines (concat (map (fun l => l ++ [nl]) lines) ++ l) = lines ++ [l].
Proof.
  intros Hlines Hl Hne. unfold splitlines.
  induction Hlines as [|x ls Hx _ [IH1 IH2]].
  - split; [reflexivity|]. simpl. apply (splitlines_from_last [] l Hl Hne).
  - cbn [map concat]. rewrite <- !app_assoc. cbn [app].
    rewrite !(splitlines_from_line [] x _ Hx). cbn [rev app].
    rewrite IH1, IH2. split; reflexivity.
Qed.

Lemma one_line_check (l : str) :
  forallb (fun x => negb (is_linebreak x)) l = true -> one_line l.
Proof.
  unfold one_line. rewrite forallb_forall, Forall_forall.
  intros H x Hx. apply negb_true_iff, H, list_elem_of_In, Hx.
Qed.

Lemma splitlines_of_lines_witness :
  splitlines (txt "// Copyright YEAR" ++ [nl] ++ txt "// Licensed")
    = [txt "// Copyright YEAR"; txt "// Licensed"].
Proof.
  apply (splitlines_of_lines [txt "// Copyright YEAR"] (txt "// Licensed")).
  - constructor; [apply one_line_check; reflexivity|constructor].
  - apply one_line_check. reflexivity.
  - discriminate.
Defined.

(** ** Loading the templates *)

Section Loading.

Variable fs : str -> read_result.

Lemma split_from_piece ch (cur a t : str) :
  ch ∉ a ->
  split_from ch cur (a ++ ch :: t) = (rev cur ++ a) :: split_from ch [] t.
Proof.
  revert cur. induction a as [|x a IH]; intros cur Ha.
  - simpl. rewrite Ascii.eqb_refl, app_nil_r. reflexivity.
  - apply not_elem_of_cons in Ha as [Hx Ha]. cbn [app split_from].
    destruct (Ascii.eqb_spec x ch) as [->|_]; [contradiction|].
    rewrite (IH (x :: cur) Ha). simpl. rewrite <- app_assoc. reflexivity.
Qed.

Lemma elem_of_rev (x : ascii) (l : str) : x ∈ rev l <-> x ∈ l.
Proof. rewrite !list_elem_of_In. symmetry. apply in_rev. Qed.

Lemma split_from_pieces ch (cur s piece : str) :
  ch ∉ cur -> piece ∈ split_from ch cur s ->
  (ch ∉ piece) /\ forall x, x ∈ piece -> x ∈ cur \/ x ∈ s.
Proof.
  revert cur. induction s as [|c s IH]; intros cur Hcur Hin; simpl in Hin.
  - apply list_elem_of_singleton in Hin as ->. split.
    + rewrite elem_of_rev. exact Hcur.
    + intros x Hx. left. apply elem_of_rev, Hx.
  - destruct (Ascii.eqb_spec c ch) as [->|Hne].
    + apply elem_of_cons in Hin as [->|Hin].
      * split; [rewrite elem_of_rev; exact Hcur|].
        intros x Hx. left. apply elem_of_rev, Hx.
      * apply IH in Hin as [H1 H2]; [|apply not_elem_of_nil].
        split; [exact H1|]. intros x Hx. right. right.
        destruct (H2 x Hx) as [H|H]; [inversion H|exact H].
    + apply IH in Hin as [H1 H2].
      * split; [exact H1|]. intros x Hx.
        destruct (H2 x Hx) as [[->|H]%elem_of_cons|H]; auto.
        -- right. left.
        -- right. right. exact H.
      * apply not_elem_of_cons. split; [congruence|exact Hcur].
Qed.

(** The key of a template named [boilerplate.<k>.<rest>]. *)
Lemma ref_key_of_name (path k rest : str) :
  basename path = txt "boilerplate." ++ k ++ extsep :: rest ->
  extsep ∉ k -> ref_key path = Some k.
Proof.
  intros Hb Hk. unfold ref_key, split. rewrite Hb.
  change (txt "boilerplate." ++ k ++ extsep :: rest)
    with (txt "boilerplate" ++ extsep :: (k ++ extsep :: rest)).
  rewrite split_from_piece by (apply absent_check; reflexivity).
  rewrite (split_from_piece _ _ _ _ Hk). reflexivity.
Qed.

Lemma ref_key_shape (path k : str) :
  ref_key path = Some k -> (extsep ∉ k) /\ (sep ∉ k).
Proof.
  unfold ref_key, split. intros H. apply list_elem_of_lookup_2 in H.
  apply split_from_pieces in H as [H1 H2]; [|apply not_elem_of_nil].
  split; [exact H1|]. intros Hin.
  destruct (H2 _ Hin) as [H|H]; [inversion H|].
  exact (PathFacts.basename_no_sep path H).
Qed.

Lemma load_refs_app (a b : list str) (acc : gmap str (list str)) :
  load_refs fs (a ++ b) acc =
    match load_refs fs a acc with
    | Return refs => load_refs fs b refs
    | Raise exc => Raise exc
    end.
Proof.
  revert acc. induction a as [|p a IH]; intros acc; [reflexivity|].
  cbn [app load_refs]. destruct (split extsep (basename p) !! 1); [|reflexivity].
  destruct (fs p); [apply IH|reflexivity|reflexivity].
Qed.

Lemma load_refs_loadable (paths : list str) (acc : gmap str (list str)) :
  Forall (loadable fs) paths -> exists refs, load_refs fs paths acc = Return refs.
Proof.
  intros H. revert acc. induction H as [|p ps [[k Hk] [d Hd]] _ IH]; intros acc.
  - exists acc. reflexivity.
  - cbn [load_refs]. unfold ref_key in Hk. rewrite Hk, Hd. apply IH.
Qed.

Lemma load_refs_other_key (paths : list str) (acc refs : gmap str (list str)) k :
  Forall (fun p => ref_key p <> Some k) paths ->
  load_refs fs paths acc = Return refs -> refs !! k = acc !! k.
Proof.
  intros H. revert acc. induction H as [|p ps Hp _ IH]; intros acc.
  - intros [= ->]. reflexivity.
  - cbn [load_refs]. unfold ref_key in Hp.
    destruct (split extsep (basename p) !! 1) as [k'|]; [|discriminate].
    destruct (fs p); [|discriminate|discriminate].
    intros Hl. rewrite (IH _ Hl). apply lookup_insert_ne. congruence.
Qed.

Lemma load_refs_entries (all paths : list str) (acc refs : gmap str (list str)) :
  paths ⊆ all ->
  (forall k T, acc !! k = Some T ->
     exists path data, path ∈ all /\ ref_key path = Some k /\
                       fs path = Content data /\ T = splitlines data) ->
  load_refs fs paths acc = Return refs ->
  forall k T, refs !! k = Some T ->
    exists path data, path ∈ all /\ ref_key path = Some k /\
                      fs path = Content data /\ T = splitlines data.
Proof.
  revert acc. induction paths as [|p ps IH]; intros acc Hsub Hacc.
  - intros [= ->]. exact Hacc.
  - cbn [load_refs].
    destruct (split extsep (basename p) !! 1) as [k'|] eqn:Hk; [|discriminate].
    destruct (fs p) as [d| |] eqn:Hd; [|discriminate|discriminate].
    apply IH.
    + intros x Hx. apply Hsub. right. exact Hx.
    + intros k T. rewrite lookup_insert. case_decide as E.
      * subst k'. intros [= <-]. exists p, d.
        split; [apply Hsub; left|]. auto.
      * apply Hacc.
Qed.

End Loading.

(** X8: when every template can be loaded, the template of a key is the
    text, split into lines, of the last globbed file with that key; the key
    of [boilerplate.<k>.<rest>] is [k]. *)
Theorem loaded_template_lookup (fs : str -> read_result)
    (before after : list str) (path k rest data : str) :
  Forall (loadable fs) (before ++ path :: after) ->
  basename path = txt "boilerplate." ++ k ++ extsep :: rest ->
  extsep ∉ k ->
  fs path = Content data ->
  Forall (fun p => ref_key p <> Some k) after ->
  exists refs,
    get_boilerplate_refs fs (before ++ path :: after) = Return refs /\
    refs !! k = Some (splitlines data).
Proof.
  intros Hall Hb Hk Hd Hafter.
  pose proof (ref_key_of_name _ _ _ Hb Hk) as Hkey.
  destruct (load_refs_loadable fs _ ∅ Hall) as [refs Hrefs].
  exists refs. split; [exact Hrefs|].
  unfold get_boilerplate_refs in *. rewrite load_refs_app in Hrefs.
  destruct (load_refs fs before ∅) as [r1|] eqn:E1; [|discriminate].
  cbn [load_refs] in Hrefs. unfold ref_key in Hkey. rewrite Hkey, Hd in Hrefs.
  rewrite (load_refs_other_key fs _ _ _ _ Hafter Hrefs).
  apply lookup_insert_eq.
Qed.

(** X9: every template of the loaded map comes from a globbed file, as the
    lines of its text; its key has no dot and no path separator, and none
    of its lines contains a line boundary. *)
Theorem loaded_templates_shape (fs : str -> read_result) (globbed : list str)
    (refs : gmap str (list str)) (k : str) (T : list str) :
  get_boilerplate_refs fs globbed = Return refs ->
  refs !! k = Some T ->
  (extsep ∉ k) /\ (sep ∉ k) /\ Forall one_line T /\
  exists path data,
    path ∈ globbed /\ ref_key path = Some k /\
    fs path = Content data /\ T = splitlines data.
Proof.
  intros Hload HT.
  destruct (load_refs_entries fs globbed globbed ∅ refs) with (k := k) (T := T)
    as (path & data & Hin & Hkey & Hd & ->); try done.
  destruct (ref_key_shape _ _ Hkey) as [H1 H2].
  split; [exact H1|]. split; [exact H2|]. split; [apply splitlines_lines|].
  exists path, data. auto.
Qed.

(** X10: a template that cannot be read is fatal: the exception leaves
    [main] before any file is checked, and nothing is printed. *)
Theorem unreadable_template_is_fatal (verbose : bool) (current_year : Z)
    (fs : str -> read_result) (before after : list str) (path exc : str)
    (rootdir : str) (filenames : list str)
    (walked : list (str * list str * list str)) :
  Forall (loadable fs) before ->
  is_Some (ref_key path) ->
  fs path = RaisesOSError exc \/ fs path = RaisesOther exc ->
  main_program verbose current_year fs (before ++ path :: after)
    rootdir filenames walked = ([], Raise exc).
Proof.
  intros Hbefore [k Hk] Hfs. unfold main_program, get_boilerplate_refs.
  rewrite load_refs_app.
  destruct (load_refs_loadable fs before ∅ Hbefore) as [r1 ->].
  cbn [load_refs]. unfold ref_key in Hk. rewrite Hk.
  destruct Hfs as [-> | ->]; reflexivity.
Qed.

Lemma loadable_check (fs : str -> read_result) (path k data : str) :
  ref_key path = Some k -> fs path = Content data -> loadable fs path.
Proof. intros Hk Hd. split; [exists k; exact Hk|exists data; exact Hd]. Qed.

Lemma loaded_template_lookup_witness :
  exists refs,
    get_boilerplate_refs template_fs
      [txt "hack/boilerplate.sh.txt"; txt "hack/boilerplate.go.txt"] = Return refs /\
    refs !! txt "go" = Some (splitlines (Sample.text Sample.go_template)).
Proof.
  apply (loaded_template_lookup template_fs [txt "hack/boilerplate.sh.txt"] []
           (txt "hack/boilerplate.go.txt") (txt "go") (txt "txt")).
  - constructor; [eapply loadable_check; vm_compute; reflexivity|].
    constructor; [eapply loadable_check; vm_compute; reflexivity|constructor].
  - vm_compute. reflexivity.
  - apply absent_check. reflexivity.
  - vm_compute. reflexivity.
  - constructor.
Defined.

Lemma loaded_templates_shape_witness :
  Forall one_line Sample.go_template.
Proof.
  refine (proj1 (proj2 (proj2
    (loaded_templates_shape template_fs
       [txt "hack/boilerplate.sh.txt"; txt "hack/boilerplate.go.txt"]
       (<[txt "go" := Sample.go_template]>
          (<[txt "sh" := Sample.sh_template]> ∅))
       (txt "go") Sample.go_template _ _)))).
  - vm_compute. reflexivity.
  - vm_compute. reflexivity.
Defined.

Lemma unreadable_template_is_fatal_witness :
  main_program false 2024 template_fs
    [txt "hack/boilerplate.sh.txt"; txt "hack/boilerplate.py.txt";
     txt "hack/boilerplate.go.txt"]
    (txt "/src") [txt "short.go"] [] =
  ([], Raise (txt "[Errno 13] Permission denied: 'hack/boilerplate.py.txt'")).
Proof.
  apply (unreadable_template_is_fatal false 2024 template_fs
           [txt "hack/boilerplate.sh.txt"] [txt "hack/boilerplate.go.txt"]
           (txt "hack/boilerplate.py.txt")).
  - constructor; [eapply loadable_check; vm_compute; reflexivity|constructor].
  - exists (txt "py"). vm_compute. reflexivity.
  - left. vm_compute. reflexivity.
Defined.

(** ** The check of one file *)

Lemma check_data_cases (verbose : bool) (filename : str)
    (refs : gmap str (list str)) (rx : regexs) (data : str) :
  let ref := reference refs rx filename data in
  let lines := normalized_lines rx filename data in
  let header := normalized_header refs rx filename data in
  (check_data verbose filename refs rx data =
     ([print (msg_smaller filename (length lines) (length ref))
         (verbose_out verbose)], false)) \/
  (check_data verbose filename refs rx data =
     ([print (msg_year (is_generated_file data rx) filename)
         (verbose_out verbose)], false)) \/
  (check_data verbose filename refs rx data = ([], true) /\
   length ref <= length lines /\
   existsb (Re.search (year rx)) header = false /\
   ref = compared_header refs rx filename data) \/
  (check_data verbose filename refs rx data =
     (print (msg_mismatch filename) (verbose_out verbose) ::
      (if verbose
       then [print_unified_diff ref (compared_header refs rx filename data)
               (txt "reference") filename (verbose_out verbose)]
       else []), false) /\
   ref <> compared_header refs rx filename data).
Proof.
  intros ref lines header.
  destruct (Nat.lt_ge_cases (length lines) (length ref)) as [Hlt|Hge].
  - left. apply check_data_smaller, Hlt.
  - destruct (existsb (Re.search (year rx)) header) eqn:Hy.
    + right. left. apply check_data_year; assumption.
    + right. right. rewrite (check_data_compare _ _ _ _ _ Hge Hy). fold ref.
      case_bool_decide as E; [left|right]; auto.
Qed.

Lemma verdict_value (verbose : bool) (filename : str)
    (refs : gmap str (list str)) (rx : regexs) (data : str) :
  verdict verbose filename refs rx data =
    (length (reference refs rx filename data) <=?
       length (normalized_lines rx filename data)) &&
    negb (existsb (Re.search (year rx)) (normalized_header refs rx filename data)) &&
    bool_decide (reference refs rx filename data =
                 compared_header refs rx filename data).
Proof.
  unfold verdict.
  destruct (Nat.leb_spec (length (reference refs rx filename data))
              (length (normalized_lines rx filename data))) as [Hge|Hlt].
  - destruct (existsb _ (normalized_header refs rx filename data)) eqn:Hy.
    + rewrite (check_data_year _ _ _ _ _ Hge Hy). reflexivity.
    + rewrite (check_data_compare _ _ _ _ _ Hge Hy).
      case_bool_decide; reflexivity.
  - rewrite (check_data_smaller _ _ _ _ _ Hlt). reflexivity.
Qed.

(** X11: the verdict on a file does not depend on the verbose flag. *)
Theorem verdict_whatever_verbose (v1 v2 : bool) (filename : str)
    (refs : gmap str (list str)) (rx : regexs) (data : str) :
  verdict v1 filename refs rx data = verdict v2 filename refs rx data.
Proof. rewrite !verdict_value. reflexivity. Qed.

(** X12: a file passes exactly when its check prints nothing.  A failing
    check prints one diagnostic line: the size diagnostic when the file has
    fewer lines than the template, else the YEAR diagnostic when a line of
    the header contains "YEAR", else the notice of a mismatch; the diff
    follows exactly when the mode is verbose and the line is the notice of a
    mismatch, and nothing else is printed.  All of it goes to the standard
    error in verbose mode and to the standard output otherwise. *)
Theorem output_of_check (verbose : bool) (filename : str)
    (refs : gmap str (list str)) (rx : regexs) (data : str) :
  let gen := is_generated_file data rx in
  let ref := reference refs rx filename data in
  let lines := normalized_lines rx filename data in
  let header := normalized_header refs rx filename data in
  let compared := compared_header refs rx filename data in
  let smaller := length lines <? length ref in
  let has_year := existsb (Re.search (year rx)) header in
  (verdict verbose filename refs rx data = true <->
   output verbose filename refs rx data = []) /\
  (verdict verbose filename refs rx data = false ->
   output verbose filename refs rx data =
     Line (if verbose then Stderr else Stdout)
       (if smaller then msg_smaller filename (length lines) (length ref)
        else if has_year then msg_year gen filename
        else msg_mismatch filename) ::
     (if verbose && negb smaller && negb has_year
      then [DiffLines Stderr ref compared (txt "reference") filename]
      else [])).
Proof.
  intros gen ref lines header compared smaller has_year.
  unfold verdict, output, smaller, has_year.
  destruct (Nat.ltb_spec (length lines) (length ref)) as [Hlt|Hge].
  - rewrite (check_data_smaller _ _ _ _ _ Hlt). fold lines ref. cbn [fst snd].
    split; [split; discriminate|]. intros _.
    rewrite andb_false_r. destruct verbose; reflexivity.
  - destruct (existsb (Re.search (year rx)) header) eqn:Hy.
    + rewrite (check_data_year _ _ _ _ _ Hge Hy). fold gen. cbn [fst snd].
      split; [split; discriminate|]. intros _.
      rewrite andb_false_r. destruct verbose; reflexivity.
    + rewrite (check_data_compare _ _ _ _ _ Hge Hy). fold ref compared.
      case_bool_decide as E; cbn [fst snd].
      * split; [split; reflexivity|discriminate].
      * split; [split; discriminate|]. intros _.
        destruct verbose; reflexivity.
Qed.

Lemma output_of_check_witness :
  output true (txt "pkg/doc.go") Sample.refs Sample.rx
    (Sample.text [txt "// Copyright 2020 The Authors."; txt "package doc"]) =
  [Line Stderr
     (txt "Header in pkg/doc.go does not match reference. Showing diff:");
   DiffLines Stderr
     [txt "// Copyright YEAR The Authors."; txt "// Licensed under the License."]
     [txt "// Copyright YEAR The Authors."; txt "package doc"]
     (txt "reference") (txt "pkg/doc.go")].
Proof.
  etransitivity.
  - apply (proj2 (output_of_check true (txt "pkg/doc.go") Sample.refs Sample.rx
                    (Sample.text [txt "// Copyright 2020 The Authors.";
                                  txt "package doc"]))).
    vm_compute. reflexivity.
  - vm_compute. reflexivity.
Defined.

(** ** Removing the preamble *)

Module StripFacts.
Import Re ReSpec ReFacts ReSound Marker.

(** What a match covers is the start of the text that remains. *)
Lemma matches_covers r c e : matches r c e -> exists m, rest c = m ++ rest e.
Proof.
  induction 1 as [c|a b s|x b s Hx|cs x b s Hx|s|b|b s
                  |r1 r2 c c1 e _ [m1 IH1] _ [m2 IH2]|r1 r2 c e _ IH|r1 r2 c e _ IH
                  |r c|r c c1 e _ [m1 IH1] Hlt _ [m2 IH2]];
    simpl in *;
    try (exists []; reflexivity);
    try (eexists [_]; reflexivity);
    try assumption.
  - exists (m1 ++ m2). rewrite IH1, IH2, app_assoc. reflexivity.
  - exists (m1 ++ m2). rewrite IH1, IH2, app_assoc. reflexivity.
Qed.

Lemma search_from_found r adv b s sk c e :
  search_from r adv b s = Some (sk, c, e) ->
  s = sk ++ rest c /\ at_bol c = bol_after b sk /\ matches r c e /\
  length (rest e) <= length (rest c).
Proof.
  revert adv b sk. induction s as [|x s IH]; intros adv b sk; cbn [search_from].
  - destruct (match_at r adv (Cursor b [])) as [e0|] eqn:E; [|discriminate].
    intros [= <- <- <-]. pose proof (match_at_shrinks _ _ _ _ E) as [Hs _].
    unfold match_at in E. apply rmatch_sound in E as (e' & Hm & Hk).
    destruct (adv && _); [discriminate|]. injection Hk as ->. auto.
  - destruct (match_at r adv (Cursor b (x :: s))) as [e0|] eqn:E.
    + intros [= <- <- <-]. pose proof (match_at_shrinks _ _ _ _ E) as [Hs _].
      unfold match_at in E. apply rmatch_sound in E as (e' & Hm & Hk).
      destruct (adv && _); [discriminate|]. injection Hk as ->. auto.
    + destruct (search_from r false (Ascii.eqb x nl) s) as [[[sk' c'] e']|] eqn:E';
        [|discriminate].
      intros [= <- <- <-]. apply IH in E' as (-> & Hb & Hm & Hl). auto.
Qed.

(** [subn("", s, 1)] removes one portion that the pattern describes, or
    nothing. *)
Lemma sub_first_block r s :
  sub_first r [] s = s \/
  exists a m b be,
    s = a ++ m ++ b /\ sub_first r [] s = a ++ b /\
    matches r (Cursor (bol_after true a) (m ++ b)) (Cursor be b).
Proof.
  unfold sub_first.
  destruct (search_from r false true s) as [[[sk c] e]|] eqn:E; [|left; reflexivity].
  right. apply search_from_found in E as (-> & Hb & Hm & _).
  destruct (matches_covers _ _ _ Hm) as [m Hc].
  destruct c as [bc sc], e as [be se]. simpl in *. subst.
  exists sk, m, se, be. auto.
Qed.

(** The form of what the shebang pattern covers. *)
Lemma matches_shebang current_year b s e :
  matches (shebang (compile_regex_patterns current_year)) (Cursor b s) e ->
  b = true /\
  exists mid nls,
    s = txt "#!" ++ mid ++ nl :: nls ++ rest e /\
    forallb not_nl mid = true /\ Forall (fun x => x = nl) nls.
Proof.
  cbn [shebang compile_regex_patterns]. intros H.
  apply matches_Cat in H as ([b1 s1] & H1 & H).
  apply matches_Bol in H1 as [Hb [= <- <-]]. simpl in Hb.
  apply matches_Cat in H as ([b2 s2] & H & H5).
  apply matches_Cat in H as ([b3 s3] & H2 & H).
  apply matches_lits in H2 as [-> _]. simpl rest.
  apply matches_Cat in H as ([b4 s4] & H3 & H4).
  apply (matches_Star_single _ _ single_Dot) in H3 as (mid & Hmid & -> & _).
  apply (single_Lit nl) in H4 as (x & s' & Hs4 & Hx & [= -> ->]).
  apply Ascii.eqb_eq in Hx as ->. simpl in Hs4. subst s4.
  apply (matches_Star_single _ _ (single_Lit nl)) in H5 as (nls & Hnls & -> & _).
  split; [exact Hb|]. exists mid, nls. split; [reflexivity|].
  split; [exact Hmid|]. apply Forall_forall. intros x Hx.
  rewrite forallb_forall in Hnls. apply Ascii.eqb_eq, Hnls, list_elem_of_In, Hx.
Qed.

(** What a repetition covers is made of what its rounds cover. *)
Lemma matches_Star_blocks (P : str -> Prop) r :
  (forall c c1, matches r c c1 -> exists l, P l /\ rest c = l ++ rest c1) ->
  forall c e, matches (Star r) c e ->
    exists ls, Forall P ls /\ rest c = concat ls ++ rest e.
Proof.
  intros Hr c e H. remember (Star r) as r' eqn:Hr'.
  induction H as [| | | | | | | | | |r0 c|r0 c c1 e H1 _ Hlt H2 IH];
    try discriminate; injection Hr' as ->.
  - exists []. split; [constructor|reflexivity].
  - destruct (Hr _ _ H1) as (l & Hl & Hc).
    destruct (IH eq_refl) as (ls & Hls & Hc1).
    exists (l :: ls). split; [constructor; assumption|].
    simpl. rewrite Hc, Hc1, app_assoc. reflexivity.
Qed.

Lemma matches_Branch r1 r2 c e :
  matches (Branch r1 r2) c e <-> matches r1 c e \/ matches r2 c e.
Proof.
  split.
  - inversion 1; subst; auto.
  - intros [H|H]; [apply M_Branch_l|apply M_Branch_r]; exact H.
Qed.

(** One round of the build-constraint pattern covers a constraint line. *)
Lemma matches_constraint_line c c1 :
  matches
    (Cat (lits (txt "//"))
       (Cat (Branch (lits (txt "go:build")) (lits (txt " +build")))
          (Cat (Star Dot) (Lit nl)))) c c1 ->
  exists l, constraint_line l /\ rest c = l ++ rest c1.
Proof.
  destruct c as [b s]. intros H.
  apply matches_Cat in H as ([b2 s2] & H1 & H).
  apply matches_lits in H1 as [-> _]. simpl rest.
  apply matches_Cat in H as ([b3 s3] & H2 & H).
  apply matches_Cat in H as ([b4 s4] & H3 & H4).
  apply (matches_Star_single _ _ single_Dot) in H3 as (mid & Hmid & -> & _).
  apply (single_Lit nl) in H4 as (x & s' & Hs4 & Hx & ->).
  apply Ascii.eqb_eq in Hx as ->. simpl in Hs4. subst s4. simpl rest.
  apply matches_Branch in H2 as [H2|H2]; apply matches_lits in H2 as [-> _];
    simpl rest.
  - exists (txt "//" ++ txt "go:build" ++ mid ++ [nl]). split.
    + exists (txt "go:build"), mid. auto.
    + rewrite <- !app_assoc. reflexivity.
  - exists (txt "//" ++ txt " +build" ++ mid ++ [nl]). split.
    + exists (txt " +build"), mid. auto.
    + rewrite <- !app_assoc. reflexivity.
Qed.

(** The form of what the build-constraint pattern covers. *)
Lemma matches_go_build_constraints current_year b s e :
  matches (go_build_constraints (compile_regex_patterns current_year))
    (Cursor b s) e ->
  b = true /\
  exists ls,
    ls <> [] /\ Forall constraint_line ls /\ s = concat ls ++ nl :: rest e.
Proof.
  cbn [go_build_constraints compile_regex_patterns]. intros H.
  apply matches_Cat in H as ([b1 s1] & H1 & H).
  apply matches_Bol in H1 as [Hb [= <- <-]]. simpl in Hb.
  apply matches_Cat in H as ([b2 s2] & H & H3).
  unfold Plus in H. apply matches_Cat in H as ([b3 s3] & H1 & H2).
  apply matches_constraint_line in H1 as (l & Hl & Hs). simpl in Hs.
  apply (matches_Star_blocks constraint_line _ matches_constraint_line) in H2
    as (ls & Hls & Hs3). simpl in Hs3.
  apply (single_Lit nl) in H3 as (x & s' & Hs2 & Hx & ->).
  apply Ascii.eqb_eq in Hx as ->. simpl rest.
  split; [exact Hb|]. exists (l :: ls).
  split; [discriminate|]. split; [constructor; assumption|].
  simpl. rewrite Hs, Hs3, Hs2, <- !app_assoc. reflexivity.
Qed.

(** A greedy repetition of a one-character pattern takes the whole run of
    such characters when the rest of the pattern accepts what follows. *)
Lemma star_greedy r (p : ascii -> bool) :
  (forall b s k,
     rmatch r (Cursor b s) k =
       match s with
       | x :: s' => if p x then k (advance x s') else None
       | [] => None
       end) ->
  forall run b t k out,
    forallb p run = true ->
    match t with x :: _ => p x = false | [] => True end ->
    k (Cursor (bol_after b run) t) = Some out ->
    rmatch (Star r) (Cursor b (run ++ t)) k = Some out.
Proof.
  intros Hr run. cbn [rmatch rest].
  induction run as [|x run IH]; intros b t k out Hrun Ht Hk.
  - simpl in *. destruct (length t); cbn [rounds]; [exact Hk|].
    rewrite Hr. destruct t as [|y t]; [rewrite Hk; reflexivity|].
    rewrite Ht, Hk. reflexivity.
  - cbn [forallb] in Hrun. apply andb_prop in Hrun as [Hx Hrun].
    cbn [app length rounds]. rewrite Hr, Hx. cbn [advance rest].
    destruct (Nat.ltb_spec (length (run ++ t)) (length (x :: run ++ t)))
      as [_|Hge]; [|simpl in Hge; lia].
    unfold advance. rewrite (IH _ t k out Hrun Ht Hk). reflexivity.
Qed.

Lemma rmatch_Dot_step b s k :
  rmatch Dot (Cursor b s) k =
    match s with
    | x :: s' => if not_nl x then k (advance x s') else None
    | [] => None
    end.
Proof.
  cbn [rmatch rest]. destruct s as [|x s]; [reflexivity|].
  unfold not_nl. destruct (Ascii.eqb x nl); reflexivity.
Qed.

Lemma rmatch_Lit_step a b s k :
  rmatch (Lit a) (Cursor b s) k =
    match s with
    | x :: s' => if Ascii.eqb x a then k (advance x s') else None
    | [] => None
    end.
Proof. reflexivity. Qed.

Lemma rmatch_Cat r1 r2 c k :
  rmatch (Cat r1 r2) c k = rmatch r1 c (fun c' => rmatch r2 c' k).
Proof. reflexivity. Qed.

Lemma rmatch_Bol s k : rmatch Bol (Cursor true s) k = k (Cursor true s).
Proof. reflexivity. Qed.

Lemma rmatch_Branch r1 r2 c k :
  rmatch (Branch r1 r2) c k =
    match rmatch r1 c k with
    | Some e => Some e
    | None => rmatch r2 c k
    end.
Proof. reflexivity. Qed.

(** The shebang pattern at the top of a text that starts with a shebang
    line. *)
Lemma match_at_shebang_top current_year mid nls t :
  forallb not_nl mid = true -> Forall (fun x => x = nl) nls ->
  match t with x :: _ => x <> nl | [] => True end ->
  exists be,
    match_at (shebang (compile_regex_patterns current_year)) false
      (Cursor true (txt "#!" ++ mid ++ nl :: nls ++ t)) = Some (Cursor be t).
Proof.
  intros Hmid Hnls Ht. eexists. unfold match_at.
  change (shebang (compile_regex_patterns current_year))
    with (Cat Bol (Cat (Cat (lits (txt "#!")) (Cat (Star Dot) (Lit nl)))
                     (Star (Lit nl)))).
  rewrite rmatch_Cat, rmatch_Bol, rmatch_Cat, rmatch_Cat.
  rewrite rmatch_lits, strip_prefix_app, rmatch_Cat.
  apply (star_greedy Dot not_nl rmatch_Dot_step mid); [exact Hmid|reflexivity|].
  cbn beta. rewrite rmatch_Lit_step, Ascii.eqb_refl. unfold advance.
  apply (star_greedy (Lit nl) (fun x => Ascii.eqb x nl) (rmatch_Lit_step nl) nls).
  - apply forallb_forall. intros x Hx. rewrite Forall_forall in Hnls.
    apply Ascii.eqb_eq, Hnls, list_elem_of_In, Hx.
  - destruct t as [|x t]; [exact I|]. apply Ascii.eqb_neq, Ht.
  - reflexivity.
Qed.

(** One round of the build-constraint pattern on a constraint line. *)
Lemma rmatch_constraint_line l b t k out :
  constraint_line l ->
  k (Cursor true t) = Some out ->
  rmatch
    (Cat (lits (txt "//"))
       (Cat (Branch (lits (txt "go:build")) (lits (txt " +build")))
          (Cat (Star Dot) (Lit nl)))) (Cursor b (l ++ t)) k = Some out.
Proof.
  intros (tag & mid & -> & Htag & Hmid) Hk.
  assert (forall b', rmatch (Cat (Star Dot) (Lit nl))
                       (Cursor b' (mid ++ nl :: t)) k = Some out) as Hline.
  { intros b'. rewrite rmatch_Cat.
    apply (star_greedy Dot not_nl rmatch_Dot_step mid); [exact Hmid|reflexivity|].
    cbn beta. rewrite rmatch_Lit_step, Ascii.eqb_refl. exact Hk. }
  rewrite <- !app_assoc. cbn [app].
  rewrite rmatch_Cat, rmatch_lits, strip_prefix_app, rmatch_Cat, rmatch_Branch.
  destruct Htag as [-> | ->].
  - rewrite rmatch_lits, strip_prefix_app, Hline. reflexivity.
  - rewrite (rmatch_lits (txt "go:build")).
    assert (strip_prefix (txt "go:build") (txt " +build" ++ mid ++ nl :: t) = None)
      as -> by reflexivity.
    rewrite rmatch_lits, strip_prefix_app. apply Hline.
Qed.

(** The rounds of the build-constraint pattern take every line of a block
    of constraint lines that a newline follows. *)
Lemma rounds_constraint_lines ls b t k out :
  Forall constraint_line ls ->
  k (Cursor (match ls with [] => b | _ => true end) (nl :: t)) = Some out ->
  rmatch
    (Star (Cat (lits (txt "//"))
             (Cat (Branch (lits (txt "go:build")) (lits (txt " +build")))
                (Cat (Star Dot) (Lit nl)))))
    (Cursor b (concat ls ++ nl :: t)) k = Some out.
Proof.
  intros Hls. revert b. induction Hls as [|l ls Hl _ IH]; intros b Hk.
  - cbn [concat app]. cbn [rmatch rest length rounds].
    rewrite rmatch_lits.
    assert (strip_prefix (txt "//") (nl :: t) = None) as -> by reflexivity.
    exact Hk.
  - cbn [concat]. rewrite <- app_assoc.
    assert (exists n, length (l ++ concat ls ++ nl :: t) = S n) as [n Hn].
    { destruct Hl as (tag & mid & -> & _). simpl. eauto. }
    change (rounds
              (rmatch (Cat (lits (txt "//"))
                         (Cat (Branch (lits (txt "go:build")) (lits (txt " +build")))
                            (Cat (Star Dot) (Lit nl)))))
              k (length (l ++ concat ls ++ nl :: t))
              (Cursor b (l ++ concat ls ++ nl :: t)) = Some out).
    rewrite Hn. cbn [rounds].
    rewrite (rmatch_constraint_line l b (concat ls ++ nl :: t) _ out Hl);
      [reflexivity|].
    cbn [rest]. rewrite Hn.
    destruct (Nat.ltb_spec (length (concat ls ++ nl :: t)) (S n)) as [Hlt|Hge].
    + rewrite (rounds_enough _ k n (length (concat ls ++ nl :: t))) by (simpl; lia).
      apply (IH true).
      destruct ls; exact Hk.
    + exfalso. rewrite length_app in Hn.
      destruct Hl as (tag & mid & -> & _). simpl in Hn. lia.
Qed.

(** The build-constraint pattern at the top of a text that starts with a
    block of constraint lines and an empty line. *)
Lemma match_at_constraints_top current_year ls t :
  ls <> [] -> Forall constraint_line ls ->
  match_at (go_build_constraints (compile_regex_patterns current_year)) false
    (Cursor true (concat ls ++ nl :: t)) = Some (Cursor true t).
Proof.
  intros Hne Hls. unfold match_at.
  change (go_build_constraints (compile_regex_patterns current_year))
    with (Cat Bol
            (Cat (Plus (Cat (lits (txt "//"))
                          (Cat (Branch (lits (txt "go:build")) (lits (txt " +build")))
                             (Cat (Star Dot) (Lit nl)))))
               (Lit nl))).
  rewrite rmatch_Cat, rmatch_Bol, rmatch_Cat. unfold Plus. rewrite rmatch_Cat.
  destruct Hls as [|l ls Hl Hls]; [congruence|].
  cbn [concat]. rewrite <- app_assoc.
  apply (rmatch_constraint_line l true _ _ _ Hl).
  apply (rounds_constraint_lines ls true t _ _ Hls).
  rewrite rmatch_Lit_step, Ascii.eqb_refl. reflexivity.
Qed.

End StripFacts.

(** X13: removing the preamble changes nothing or deletes exactly one block
    that starts a line: for "go" and "generatego" a run of build-constraint
    lines with the empty line after it, for "sh" and "py" a shebang line
    with empty lines after it; for any other type key the text is kept. *)
Theorem stripped_preamble_is_a_block (current_year : Z) (extension data : str) :
  let rx := compile_regex_patterns current_year in
  strip_preamble rx extension data = data \/
  exists before block after,
    data = before ++ block ++ after /\
    strip_preamble rx extension data = before ++ after /\
    line_start before /\
    (((extension = txt "go" \/ extension = txt "generatego") /\
      exists ls, ls <> [] /\ Forall constraint_line ls /\
                 block = concat ls ++ [nl]) \/
     ((extension = txt "sh" \/ extension = txt "py") /\
      exists mid nls,
        block = txt "#!" ++ mid ++ nl :: nls /\
        forallb not_nl mid = true /\ Forall (fun x => x = nl) nls)).
Proof.
  intros rx. unfold strip_preamble.
  destruct (bool_decide (extension = txt "go") ||
            bool_decide (extension = txt "generatego")) eqn:Hgo.
  - destruct (StripFacts.sub_first_block (go_build_constraints rx) data)
      as [H|(a & m & b & be & -> & Hsub & Hm)]; [left; exact H|right].
    apply StripFacts.matches_go_build_constraints in Hm as (Hb & ls & Hne & Hls & Hs).
    simpl in Hs. exists a, m, b. split; [reflexivity|]. split; [exact Hsub|].
    split; [apply bol_after_true, Hb|]. left. split.
    + apply orb_prop in Hgo as [H|H]; apply bool_decide_eq_true in H; auto.
    + exists ls. split; [exact Hne|]. split; [exact Hls|].
      apply (app_inv_tail b). rewrite Hs, <- app_assoc. reflexivity.
  - destruct (bool_decide (extension = txt "sh") ||
              bool_decide (extension = txt "py")) eqn:Hsh; [|left; reflexivity].
    destruct (StripFacts.sub_first_block (shebang rx) data)
      as [H|(a & m & b & be & -> & Hsub & Hm)]; [left; exact H|right].
    apply StripFacts.matches_shebang in Hm as (Hb & mid & nls & Hs & Hmid & Hnls).
    simpl in Hs. exists a, m, b. split; [reflexivity|]. split; [exact Hsub|].
    split; [apply bol_after_true, Hb|]. right. split.
    + apply orb_prop in Hsh as [H|H]; apply bool_decide_eq_true in H; auto.
    + exists mid, nls. split; [|auto].
      apply (app_inv_tail b). rewrite Hs, <- !app_assoc. reflexivity.
Qed.

Lemma sub_first_at_top r s e :
  Re.match_at r false (Re.Cursor true s) = Some e ->
  Re.sub_first r [] s = Re.rest e.
Proof.
  intros H. unfold Re.sub_first.
  destruct s; cbn [Re.search_from]; rewrite H; reflexivity.
Qed.

(** X14: a script ("sh", "py") that starts with a shebang line loses that
    line and all the empty lines after it, and nothing else. *)
Theorem shebang_stripped_at_top (current_year : Z) (extension mid nls rest : str) :
  extension = txt "sh" \/ extension = txt "py" ->
  forallb not_nl mid = true -> Forall (fun x => x = nl) nls ->
  match rest with x :: _ => x <> nl | [] => True end ->
  strip_preamble (compile_regex_patterns current_year) extension
    (txt "#!" ++ mid ++ nl :: nls ++ rest) = rest.
Proof.
  intros Hext Hmid Hnls Hrest.
  destruct (StripFacts.match_at_shebang_top current_year mid nls rest Hmid Hnls Hrest)
    as [be Hm].
  unfold strip_preamble.
  destruct Hext as [-> | ->]; cbn [orb bool_decide];
    (rewrite bool_decide_eq_false_2 by discriminate);
    (rewrite bool_decide_eq_false_2 by discriminate); cbn [orb].
  - rewrite bool_decide_eq_true_2 by reflexivity. cbn [orb].
    apply (sub_first_at_top _ _ _ Hm).
  - rewrite (bool_decide_eq_false_2 (txt "py" = txt "sh")) by discriminate.
    rewrite bool_decide_eq_true_2 by reflexivity. cbn [orb].
    apply (sub_first_at_top _ _ _ Hm).
Qed.

Lemma shebang_stripped_at_top_witness :
  strip_preamble Sample.rx (txt "sh")
    (txt "#!" ++ txt "/bin/sh -e" ++ nl :: [nl; nl] ++ txt "# Copyright")
  = txt "# Copyright".
Proof.
  apply (shebang_stripped_at_top 2024 (txt "sh") (txt "/bin/sh -e") [nl; nl]
           (txt "# Copyright")).
  - left. reflexivity.
  - reflexivity.
  - repeat constructor.
  - discriminate.
Defined.

(** X15: a Go file ("go", "generatego") that starts with a run of
    build-constraint lines and an empty line loses exactly these. *)
Theorem build_constraints_stripped_at_top (current_year : Z)
    (extension : str) (ls : list str) (rest : str) :
  extension = txt "go" \/ extension = txt "generatego" ->
  ls <> [] -> Forall constraint_line ls ->
  strip_preamble (compile_regex_patterns current_year) extension
    (concat ls ++ nl :: rest) = rest.
Proof.
  intros Hext Hne Hls.
  pose proof (StripFacts.match_at_constraints_top current_year ls rest Hne Hls) as Hm.
  unfold strip_preamble.
  assert (bool_decide (extension = txt "go") ||
          bool_decide (extension = txt "generatego") = true) as ->.
  { destruct Hext as [-> | ->].
    - rewrite bool_decide_eq_true_2; reflexivity.
    - rewrite (bool_decide_eq_true_2 (txt "generatego" = txt "generatego"))
        by reflexivity.
      apply orb_true_r. }
  apply (sub_first_at_top _ _ _ Hm).
Qed.

Lemma build_constraints_stripped_at_top_witness :
  strip_preamble Sample.rx (txt "go")
    (concat [txt "//go:build linux" ++ [nl]; txt "// +build linux" ++ [nl]]
       ++ nl :: txt "// Copyright")
  = txt "// Copyright".
Proof.
  apply (build_constraints_stripped_at_top 2024 (txt "go")).
  - left. reflexivity.
  - discriminate.
  - constructor; [|constructor; [|constructor]].
    + exists (txt "go:build"), (txt " linux"). auto.
    + exists (txt " +build"), (txt " linux"). auto.
Defined.

(** ** A clock before 2014 *)

Lemma sub_loop_Empty_advance (repl : str) :
  forall (s : str) fuel b,
    length s < fuel ->
    Re.sub_loop fuel Re.Empty repl true b s = concat (map (fun x => x :: repl) s).
Proof.
  induction s as [|x s IH]; intros fuel b Hfuel.
  - destruct fuel; reflexivity.
  - destruct fuel as [|fuel]; [lia|]. simpl in Hfuel.
    cbn [Re.sub_loop Re.search_from].
    assert (Re.match_at Re.Empty true (Re.Cursor b (x :: s)) = None) as ->.
    { unfold Re.match_at. cbn [Re.rmatch Re.rest]. rewrite Nat.eqb_refl. reflexivity. }
    assert (Re.search_from Re.Empty false (Ascii.eqb x nl) s =
            Some ([], Re.Cursor (Ascii.eqb x nl) s, Re.Cursor (Ascii.eqb x nl) s)) as ->.
    { destruct s; reflexivity. }
    cbn [Re.rest Re.at_bol]. rewrite Nat.eqb_refl, IH by lia.
    cbn [map concat app]. reflexivity.
Qed.

Lemma sub_Empty (repl s : str) :
  Re.sub Re.Empty repl s = repl ++ concat (map (fun x => x :: repl) s).
Proof.
  unfold Re.sub. replace (2 * length s + 2) with (S (2 * length s + 1)) by lia.
  cbn [Re.sub_loop].
  assert (Re.search_from Re.Empty false true s =
          Some ([], Re.Cursor true s, Re.Cursor true s)) as ->.
  { destruct s; reflexivity. }
  cbn [Re.rest Re.at_bol app]. rewrite Nat.eqb_refl, sub_loop_Empty_advance by lia.
  reflexivity.
Qed.

(** X16: when the clock's year is before 2014 the pattern of years has no
    alternative and matches the empty text everywhere: the substitution puts
    "YEAR" before the line, after it and between all its characters. *)
Theorem years_before_2014 (current_year : Z) (line : str) :
  (current_year < 2014)%Z ->
  Re.sub (date (compile_regex_patterns current_year)) (txt "YEAR") line =
    txt "YEAR" ++ concat (map (fun x => x :: txt "YEAR") line).
Proof.
  intros Hy.
  assert (date (compile_regex_patterns current_year) = Re.Empty) as ->.
  { cbn [date compile_regex_patterns]. unfold get_current_year_regex, range.
    replace (Z.to_nat (current_year + 1 - 2014)) with 0 by lia. reflexivity. }
  apply sub_Empty.
Qed.

Lemma years_before_2014_witness :
  Re.sub (date (compile_regex_patterns 2013)) (txt "YEAR") (txt "ab") =
    txt "YEARaYEARbYEAR".
Proof.
  apply (years_before_2014 2013 (txt "ab")). lia.
Defined.

(** ** Choosing the files *)

Lemma normalize_files_value (rootdir : str) (files : list str) :
  normalize_files rootdir files =
    match files with
    | [] => Return []
    | _ :: _ => Raise (txt "name 'skipped_names' is not defined")
    end.
Proof. destruct files; reflexivity. Qed.

Lemma files_of_nil (extensions : gset str) (root : str) (names : list str) :
  files_of extensions root names = [] <->
  forall name, name ∈ names ->
    (get_file_extension name ∉ extensions) /\ (name ∉ extensions).
Proof.
  unfold files_of. induction names as [|n names IH]; cbn [List.filter].
  - split; [intros _ name H; inversion H|reflexivity].
  - destruct (bool_decide (get_file_extension n ∈ extensions) ||
              bool_decide (n ∈ extensions)) eqn:E.
    + cbn [map]. split; [discriminate|]. intros H. exfalso.
      destruct (H n) as [H1 H2]; [left|].
      apply orb_prop in E as [E|E]; apply bool_decide_eq_true in E;
        contradiction.
    + rewrite IH. apply orb_false_elim in E as [E1 E2].
      apply bool_decide_eq_false in E1. apply bool_decide_eq_false in E2.
      split.
      * intros H name [->|Hin]%elem_of_cons; auto.
      * intros H name Hin. apply H. right. exact Hin.
Qed.

(** No file is handed to [normalize_files] exactly when none is named and
    the walk meets no name with a template key. *)
Lemma files_given_nil (filenames : list str)
    (walked : list (str * list str * list str)) (extensions : gset str) :
  files_given filenames walked extensions = [] <->
  filenames = [] /\
  forall root dirs names name,
    (root, dirs, names) ∈ walked -> name ∈ names ->
    (get_file_extension name ∉ extensions) /\ (name ∉ extensions).
Proof.
  unfold files_given. destruct filenames as [|f filenames].
  - induction walked as [|[[root dirs] names] walked IH]; cbn [flat_map].
    + split; [|reflexivity]. intros _. split; [reflexivity|].
      intros r d ns n H. inversion H.
    + rewrite app_nil, files_of_nil, IH. split.
      * intros (H1 & _ & H2). split; [reflexivity|].
        intros r d ns n [[= -> -> ->]|Hin]%elem_of_cons Hn; eauto.
      * intros (_ & H). split.
        -- intros name Hn. apply (H root dirs names); [left|exact Hn].
        -- split; [reflexivity|]. intros r d ns n Hin Hn.
           apply (H r d ns); [right; exact Hin|exact Hn].
  - split; [discriminate|intros [H _]; discriminate].
Qed.

(** Once the templates are loaded, [main] ends before its loop has checked a
    file. *)
Lemma main_program_value (verbose : bool) (current_year : Z)
    (fs : str -> read_result) (globbed : list str) (rootdir : str)
    (filenames : list str) (walked : list (str * list str * list str))
    (refs : gmap str (list str)) :
  get_boilerplate_refs fs globbed = Return refs ->
  main_program verbose current_year fs globbed rootdir filenames walked =
    ([], match files_given filenames walked (dom refs) with
         | [] => Return 0%Z
         | _ :: _ => Raise (txt "name 'skipped_names' is not defined")
         end).
Proof.
  intros H. unfold main_program, get_files_to_check.
  rewrite H, normalize_files_value.
  destruct (files_given filenames walked (dom refs)); reflexivity.
Qed.

(** X17: when the templates load and a file is named on the command line,
    [main] raises the [NameError] of [normalize_files] (the name
    [skipped_names] is not defined): no file is read or checked, and no
    call of [print] is reached. *)
Theorem named_files_raise_name_error (verbose : bool) (current_year : Z)
    (fs : str -> read_result) (globbed : list str) (rootdir : str)
    (filenames : list str) (walked : list (str * list str * list str)) :
  Forall (loadable fs) globbed ->
  filenames <> [] ->
  main_program verbose current_year fs globbed rootdir filenames walked =
    ([], Raise (txt "name 'skipped_names' is not defined")).
Proof.
  intros Hl Hf. destruct (load_refs_loadable fs globbed ∅ Hl) as [refs Hr].
  rewrite (main_program_value _ _ _ _ _ _ _ refs Hr).
  destruct filenames; [contradiction|reflexivity].
Qed.

Lemma named_files_raise_name_error_witness :
  main_program false 2024 template_fs
    [txt "hack/boilerplate.sh.txt"; txt "hack/boilerplate.go.txt"]
    (txt "/src") [txt "good.go"] [] =
  ([], Raise (txt "name 'skipped_names' is not defined")).
Proof.
  apply named_files_raise_name_error.
  - constructor; [eapply loadable_check; vm_compute; reflexivity|].
    constructor; [eapply loadable_check; vm_compute; reflexivity|constructor].
  - discriminate.
Defined.

(** X18: when the templates load, no file is named on the command line and
    the walk of the root directory meets a file whose extension or name is a
    key of the templates, [main] raises the same [NameError]: no file is
    read or checked, and no call of [print] is reached. *)
Theorem walked_files_raise_name_error (verbose : bool) (current_year : Z)
    (fs : str -> read_result) (globbed : list str) (rootdir : str)
    (walked : list (str * list str * list str)) (refs : gmap str (list str))
    (root : str) (dirs names : list str) (name : str) :
  get_boilerplate_refs fs globbed = Return refs ->
  (root, dirs, names) ∈ walked -> name ∈ names ->
  get_file_extension name ∈ dom refs \/ name ∈ dom refs ->
  main_program verbose current_year fs globbed rootdir [] walked =
    ([], Raise (txt "name 'skipped_names' is not defined")).
Proof.
  intros Hr Hw Hn Hk. rewrite (main_program_value _ _ _ _ _ _ _ refs Hr).
  destruct (files_given [] walked (dom refs)) eqn:E; [|reflexivity].
  exfalso. apply files_given_nil in E as [_ E].
  destruct (E _ _ _ _ Hw Hn) as [H1 H2]. destruct Hk; contradiction.
Qed.

Lemma walked_files_raise_name_error_witness :
  main_program true 2024 template_fs
    [txt "hack/boilerplate.sh.txt"; txt "hack/boilerplate.go.txt"]
    (txt "/src") []
    [(txt "/src", [txt "pkg"], [txt "notes.md"]);
     (txt "/src/pkg", [], [txt "doc.go"])] =
  ([], Raise (txt "name 'skipped_names' is not defined")).
Proof.
  apply (walked_files_raise_name_error true 2024 template_fs
           [txt "hack/boilerplate.sh.txt"; txt "hack/boilerplate.go.txt"]
           (txt "/src")
           [(txt "/src", [txt "pkg"], [txt "notes.md"]);
            (txt "/src/pkg", [], [txt "doc.go"])]
           (<[txt "go" := Sample.go_template]>
              (<[txt "sh" := Sample.sh_template]> ∅))
           (txt "/src/pkg") [] [txt "doc.go"] (txt "doc.go")).
  - vm_compute. reflexivity.
  - right. left.
  - left.
  - left. apply elem_of_dom. exists Sample.go_template.
    vm_compute. reflexivity.
Defined.

(** X19: no call of [print] is ever reached from [main], and [main] returns
    (the value 0) exactly when the templates load and there is nothing to
    check: no file is named on the command line and the walk meets no file
    whose extension or name is a key of the templates.  In every other case
    an exception leaves [main]. *)
Theorem main_returns_only_without_files (verbose : bool) (current_year : Z)
    (fs : str -> read_result) (globbed : list str) (rootdir : str)
    (filenames : list str) (walked : list (str * list str * list str)) :
  let run :=
    main_program verbose current_year fs globbed rootdir filenames walked in
  fst run = [] /\
  (forall z, snd run = Return z -> z = 0%Z) /\
  (snd run = Return 0%Z <->
   exists refs,
     get_boilerplate_refs fs globbed = Return refs /\
     filenames = [] /\
     forall root dirs names name,
       (root, dirs, names) ∈ walked -> name ∈ names ->
       (get_file_extension name ∉ dom refs) /\ (name ∉ dom refs)).
Proof.
  intros run. unfold run.
  destruct (get_boilerplate_refs fs globbed) as [refs|exc] eqn:Hr.
  - rewrite (main_program_value _ _ _ _ _ _ _ refs Hr).
    destruct (files_given filenames walked (dom refs)) as [|f files] eqn:E;
      cbn [fst snd].
    + split; [reflexivity|]. split; [intros z [= <-]; reflexivity|].
      split; [|reflexivity]. intros _. exists refs.
      split; [reflexivity|]. apply files_given_nil, E.
    + split; [reflexivity|]. split; [discriminate|].
      split; [discriminate|]. intros (refs' & [= <-] & H).
      apply files_given_nil in H. congruence.
  - unfold main_program. rewrite Hr. cbn [fst snd].
    split; [reflexivity|]. split; [discriminate|].
    split; [discriminate|]. intros (refs' & H & _). discriminate.
Qed.

(** ** The loop over the files *)

Lemma verbose_output_on_stderr (filename : str) (refs : gmap str (list str))
    (rx : regexs) (opened : read_result) (out : list event) (r : outcome bool) :
  file_passes_check true opened filename refs rx = (out, r) ->
  List.filter on_stdout out = [].
Proof.
  destruct opened as [data|msg|exc]; cbn [file_passes_check].
  - destruct (check_data_cases true filename refs rx data)
      as [H | [H | [(H & _) | [H _]]]]; rewrite H; intros [= <- _]; reflexivity.
  - intros [= <- _]. reflexivity.
  - intros [= <- _]. reflexivity.
Qed.

Lemma quiet_output_on_stdout (filename : str) (refs : gmap str (list str))
    (rx : regexs) (opened : read_result) (out : list event) (r : outcome bool) :
  file_passes_check false opened filename refs rx = (out, r) ->
  Forall (fun e => on_stdout e = true) out.
Proof.
  destruct opened as [data|msg|exc]; cbn [file_passes_check].
  - destruct (check_data_cases false filename refs rx data)
      as [H | [H | [(H & _) | [H _]]]]; rewrite H; intros [= <- _];
      repeat constructor.
  - intros [= <- _]. repeat constructor.
  - intros [= <- _]. constructor.
Qed.

(** X20: the loop of [main], run over a list of files of which none raises
    anything but an [OSError] on reading, reaches its end whatever the
    verdicts are.  In verbose mode what it writes to the standard output is
    one line "Failed: <path>" for every file of the list that does not pass,
    in the order of the list; without the verbose flag everything it writes
    goes to the standard output. *)
Theorem loop_reports_failures (verbose : bool) (fs : str -> read_result)
    (refs : gmap str (list str)) (rx : regexs) (files : list str) :
  (forall f exc, f ∈ files -> fs f <> RaisesOther exc) ->
  exists out,
    check_files verbose fs refs rx files = (out, Return tt) /\
    (verbose = true ->
     List.filter on_stdout out =
       map (fun f => Line Stdout (txt "Failed: " ++ f))
         (List.filter (fun f => negb (passes true fs refs rx f)) files)) /\
    (verbose = false -> Forall (fun e => on_stdout e = true) out).
Proof.
  induction files as [|f files IH]; intros Hfs.
  - exists []. split; [reflexivity|]. split; [reflexivity|constructor].
  - destruct IH as (out' & Hout' & Hv & Hq).
    { intros f' exc Hin. apply Hfs. right. exact Hin. }
    cbn [check_files List.filter].
    destruct (file_passes_check verbose (fs f) f refs rx)
      as [o [passed|exc]] eqn:E.
    + rewrite Hout'. eexists. split; [reflexivity|]. split.
      * intros ->. unfold passes at 1. rewrite E.
        rewrite !List.filter_app, (verbose_output_on_stderr _ _ _ _ _ _ E),
          (Hv eq_refl).
        destruct passed; reflexivity.
      * intros ->. apply Forall_app. split.
        -- exact (quiet_output_on_stdout _ _ _ _ _ _ E).
        -- apply Forall_app. split; [|exact (Hq eq_refl)].
           destruct passed; repeat constructor.
    + exfalso. destruct (fs f) as [data|msg|exc'] eqn:Hf.
      * cbn [file_passes_check] in E.
        destruct (check_data verbose f refs rx data). discriminate.
      * discriminate.
      * apply (Hfs f exc'); [left|exact Hf].
Qed.

Lemma sample_fs_no_other (files : list str) :
  txt "binary.go" ∉ files ->
  forall f exc, f ∈ files -> sample_fs f <> RaisesOther exc.
Proof.
  intros Hb f exc Hin. unfold sample_fs.
  repeat (case_bool_decide; [try discriminate|]); [|discriminate].
  subst f. contradiction.
Qed.

Lemma loop_reports_failures_witness :
  exists out,
    check_files true sample_fs Sample.refs Sample.rx
      [txt "good.go"; txt "short.go"; txt "gone.go"] = (out, Return tt) /\
    List.filter on_stdout out =
      [Line Stdout (txt "Failed: short.go"); Line Stdout (txt "Failed: gone.go")].
Proof.
  destruct (loop_reports_failures true sample_fs Sample.refs Sample.rx
              [txt "good.go"; txt "short.go"; txt "gone.go"])
    as (out & Hout & Hv & _).
  - apply sample_fs_no_other.
    apply not_elem_of_cons. split; [discriminate|].
    apply not_elem_of_cons. split; [discriminate|].
    apply not_elem_of_cons. split; [discriminate|apply not_elem_of_nil].
  - exists out. split; [exact Hout|].
    rewrite (Hv eq_refl). vm_compute. reflexivity.
Defined.

(** ** Years after the substitution *)

Section NoYearLeft.
Import Re ReFacts.

Variable current_year : Z.
Hypothesis year_lo : (2014 <= current_year)%Z.
Hypothesis year_hi : (current_year <= 9999)%Z.

Let rx := compile_regex_patterns current_year.

Lemma year_head w :
  w ∈ years current_year -> exists d w', w = d :: w' /\ is_digit d = true.
Proof.
  intros Hw. pose proof (years_four_digits _ _ year_hi Hw) as H4.
  pose proof (four_digits_length _ H4) as L.
  pose proof (four_digits_digits _ H4) as D.
  destruct w as [|d w']; [discriminate|]. exists d, w'. split; [reflexivity|].
  simpl in D. apply andb_prop in D as [D _]. exact D.
Qed.

Lemma no_year_at_letter c (s : str) :
  is_digit c = false -> first_prefix (years current_year) (c :: s) = None.
Proof.
  intros Hc. apply first_prefix_None. intros w Hw.
  destruct (year_head w Hw) as (d & w' & -> & Hd). simpl.
  destruct (Ascii.eqb_spec c d) as [->|]; [congruence|reflexivity].
Qed.

Lemma no_year_at_end : first_prefix (years current_year) [] = None.
Proof.
  apply first_prefix_None. intros w Hw.
  destruct (year_head w Hw) as (d & w' & -> & Hd). reflexivity.
Qed.

Lemma sub_loop_year_step fuel b w s1 :
  first_prefix (years current_year) (w ++ s1) = Some (w, s1) ->
  w ∈ years current_year ->
  sub_loop (S fuel) (date rx) (txt "YEAR") false b (w ++ s1) =
    txt "YEAR" ++ sub_loop fuel (date rx) (txt "YEAR") false (bol_after b w) s1.
Proof.
  intros E Hw.
  rewrite (sub_loop_match _ _ _ _ _ (Cursor (bol_after b w) s1)).
  - reflexivity.
  - unfold rx. rewrite (match_at_date _ year_lo), E. reflexivity.
  - cbn [rest]. rewrite length_app.
    pose proof (four_digits_length _ (years_four_digits _ _ year_hi Hw)). lia.
Qed.

Lemma first_prefix_split s w s1 :
  first_prefix (years current_year) s = Some (w, s1) ->
  s = w ++ s1 /\ w ∈ years current_year /\ length w = 4.
Proof.
  intros E. apply first_prefix_Some in E as [Hw ->].
  split; [reflexivity|]. split; [exact Hw|].
  apply four_digits_length, (years_four_digits _ _ year_hi Hw).
Qed.

(** A run of digits that starts the text after the substitution started the
    text before it. *)
Lemma digits_prefix_sub_loop u :
  forallb is_digit u = true ->
  forall t fuel b,
    strip_prefix u (sub_loop fuel (date rx) (txt "YEAR") false b t) <> None ->
    strip_prefix u t <> None.
Proof.
  induction u as [|d u IH]; intros Hu t fuel b Hp; [discriminate|].
  cbn [forallb] in Hu. apply andb_prop in Hu as [Hd Hu].
  destruct fuel as [|fuel]; [exact Hp|].
  destruct t as [|x t].
  - rewrite sub_loop_nil in Hp; [exact Hp|].
    unfold rx. rewrite (match_at_date _ year_lo), no_year_at_end. reflexivity.
  - destruct (first_prefix (years current_year) (x :: t)) as [[w s1]|] eqn:E.
    + destruct (first_prefix_split _ _ _ E) as (Hs & Hw & _).
      rewrite Hs in E, Hp. rewrite (sub_loop_year_step _ _ _ _ E Hw) in Hp.
      change (txt "YEAR") with ("Y"%char :: txt "EAR") in Hp.
      cbn [app strip_prefix] in Hp.
      destruct (Ascii.eqb_spec "Y"%char d) as [<-|]; [|congruence].
      discriminate Hd.
    + rewrite sub_loop_skip in Hp
        by (unfold rx; rewrite (match_at_date _ year_lo), E; reflexivity).
      cbn [strip_prefix] in Hp |- *. destruct (Ascii.eqb x d); [|congruence].
      exact (IH Hu _ _ _ Hp).
Qed.

(** After the substitution no year of the range is left. *)
Lemma sub_loop_no_year (n : nat) :
  forall t fuel b a s',
    length t <= n -> length t < fuel ->
    sub_loop fuel (date rx) (txt "YEAR") false b t = a ++ s' ->
    first_prefix (years current_year) s' = None.
Proof.
  induction n as [n IH] using lt_wf_ind. intros t fuel b a s' Hn Hfuel Hout.
  destruct fuel as [|fuel]; [lia|].
  destruct t as [|x t].
  - rewrite sub_loop_nil in Hout
      by (unfold rx; rewrite (match_at_date _ year_lo), no_year_at_end; reflexivity).
    symmetry in Hout. apply app_eq_nil in Hout as [_ ->]. apply no_year_at_end.
  - destruct (first_prefix (years current_year) (x :: t)) as [[w s1]|] eqn:E.
    + destruct (first_prefix_split _ _ _ E) as (Hs & Hw & Hl).
      rewrite Hs in E, Hout, Hn, Hfuel.
      rewrite (sub_loop_year_step _ _ _ _ E Hw) in Hout.
      rewrite length_app in Hn, Hfuel.
      destruct a as [|a0 [|a1 [|a2 [|a3 a']]]]; simpl in Hout;
        try (subst s'; apply no_year_at_letter; reflexivity);
        try (injection Hout as _ <-; apply no_year_at_letter; reflexivity);
        try (injection Hout as _ _ <-; apply no_year_at_letter; reflexivity);
        try (injection Hout as _ _ _ <-; apply no_year_at_letter; reflexivity).
      injection Hout as _ _ _ _ Hout.
      apply (IH (length s1)) with (t := s1) (fuel := fuel)
                                  (b := bol_after b w) (a := a'); [lia|lia|lia|].
      exact Hout.
    + rewrite sub_loop_skip in Hout
        by (unfold rx; rewrite (match_at_date _ year_lo), E; reflexivity).
      simpl in Hn, Hfuel. destruct a as [|a0 a'].
      * cbn [app] in Hout. subst s'. apply first_prefix_None. intros w Hw.
        pose proof (proj1 (first_prefix_None _ _) E w Hw) as Ew.
        match goal with
        | |- ?X = None => destruct X eqn:Ew'; [|reflexivity]
        end.
        exfalso.
        apply (digits_prefix_sub_loop w
                 (four_digits_digits _ (years_four_digits _ _ year_hi Hw))
                 (x :: t) (S fuel) b); [|exact Ew].
        rewrite sub_loop_skip
          by (unfold rx; rewrite (match_at_date _ year_lo), E; reflexivity).
        rewrite Ew'. discriminate.
      * injection Hout as _ Hout.
        apply (IH (length t)) with (t := t) (fuel := S fuel)
                                   (b := Ascii.eqb x nl) (a := a'); [lia|lia|lia|].
        exact Hout.
Qed.

Lemma sub_no_year_left (line : str) :
  search (date rx) (sub (date rx) (txt "YEAR") line) = false.
Proof.
  destruct (search (date rx) (sub (date rx) (txt "YEAR") line)) eqn:E;
    [|reflexivity].
  exfalso. apply search_true in E as (a & s' & e & Hs & Hm).
  unfold rx in Hm. rewrite (match_at_date _ year_lo) in Hm.
  unfold sub in Hs.
  rewrite (sub_loop_no_year (length line) line (2 * length line + 2) true a s')
    in Hm; [discriminate|lia|lia|exact Hs].
Qed.

End NoYearLeft.

(** X21: the substitution of years leaves no year of the range behind, so
    that applying it again changes nothing. *)
Theorem year_substitution_settles (current_year : Z) (line : str) :
  (2014 <= current_year <= 9999)%Z ->
  let rx := compile_regex_patterns current_year in
  Re.search (date rx) (Re.sub (date rx) (txt "YEAR") line) = false /\
  Re.sub (date rx) (txt "YEAR") (Re.sub (date rx) (txt "YEAR") line) =
    Re.sub (date rx) (txt "YEAR") line.
Proof.
  intros [Hlo Hhi] rx.
  pose proof (sub_no_year_left current_year Hlo Hhi line) as H.
  split; [exact H|]. apply ReFacts.sub_no_match, H.
Qed.

Lemma year_substitution_settles_witness :
  Re.search (date Sample.rx)
    (Re.sub (date Sample.rx) (txt "YEAR") (txt "Copyright 2014-20202021")) = false.
Proof.
  apply (year_substitution_settles 2024 (txt "Copyright 2014-20202021")). lia.
Defined.

(** X22: a template with a line that contains a year of the range cannot
    be met by any file that is not generated: every such file fails. *)
Theorem literal_year_template_never_passes (verbose : bool) (filename : str)
    (refs : gmap str (list str)) (current_year : Z) (data : str) :
  (2014 <= current_year <= 9999)%Z ->
  let rx := compile_regex_patterns current_year in
  is_generated_file data rx = false ->
  Exists (fun line => Re.search (date rx) line = true)
    (reference refs rx filename data) ->
  verdict verbose filename refs rx data = false.
Proof.
  intros [Hlo Hhi] rx Hgen Hex. rewrite verdict_value.
  case_bool_decide as E; [|apply andb_false_r]. exfalso.
  unfold compared_header in E. rewrite Hgen in E. rewrite E in Hex.
  apply Exists_exists in Hex as (line & Hin & Hs).
  apply list_elem_of_fmap in Hin as (h & -> & _).
  unfold rx in Hs. rewrite (sub_no_year_left current_year Hlo Hhi h) in Hs.
  discriminate.
Qed.

Lemma literal_year_template_never_passes_witness :
  verdict false (txt "pkg/doc.go")
    (<[txt "go" := [txt "// Copyright 2016 The Authors."]]> ∅) Sample.rx
    (Sample.text [txt "// Copyright 2016 The Authors."]) = false.
Proof.
  apply (literal_year_template_never_passes false (txt "pkg/doc.go")
           (<[txt "go" := [txt "// Copyright 2016 The Authors."]]> ∅) 2024).
  - lia.
  - vm_compute. reflexivity.
  - apply Exists_cons_hd. vm_compute. reflexivity.
Defined.

(** X23: a template with a line that contains the text "YEAR" cannot be met
    by any generated file: every generated file fails against it.  One with
    at least as many lines as the template fails at the YEAR guard when a
    line of its header contains "YEAR", and otherwise at the comparison, its
    header being compared as it is; a shorter one fails at the size
    check. *)
Theorem placeholder_template_fails_generated (verbose : bool) (filename : str)
    (refs : gmap str (list str)) (current_year : Z) (data : str) :
  let rx := compile_regex_patterns current_year in
  let ref := reference refs rx filename data in
  let lines := normalized_lines rx filename data in
  let header := normalized_header refs rx filename data in
  let to := if verbose then Stderr else Stdout in
  is_generated_file data rx = true ->
  Exists (contains (txt "YEAR")) ref ->
  verdict verbose filename refs rx data = false /\
  (length lines < length ref ->
   output verbose filename refs rx data =
     [Line to (msg_smaller filename (length lines) (length ref))]) /\
  (length ref <= length lines ->
   Exists (contains (txt "YEAR")) header ->
   output verbose filename refs rx data = [Line to (msg_year true filename)]) /\
  (length ref <= length lines ->
   Forall (fun line => ~ contains (txt "YEAR") line) header ->
   ref <> header /\
   output verbose filename refs rx data =
     Line to (msg_mismatch filename) ::
     (if verbose
      then [DiffLines Stderr ref header (txt "reference") filename]
      else [])).
Proof.
  intros rx ref lines header to Hgen Hex.
  assert (Forall (fun line => ~ contains (txt "YEAR") line) header ->
          ref <> header) as Hne.
  { intros Hall E. rewrite <- E in Hall. rewrite Forall_forall in Hall.
    apply Exists_exists in Hex as (line & Hin & Hc).
    exact (Hall line Hin Hc). }
  assert (compared_header refs rx filename data = header) as Hcmp.
  { unfold compared_header. rewrite Hgen. reflexivity. }
  split; [|split; [|split]].
  - rewrite verdict_value. fold ref header. rewrite Hcmp.
    case_bool_decide as E; [|apply andb_false_r].
    destruct (existsb (Re.search (year rx)) header) eqn:Hy;
      [cbn [negb]; rewrite andb_false_r; reflexivity|exfalso].
    apply (existsb_search_year current_year) in Hy. exact (Hne Hy E).
  - intros Hlt. unfold output. rewrite (check_data_smaller _ _ _ _ _ Hlt).
    destruct verbose; reflexivity.
  - intros Hge Hyear.
    assert (existsb (Re.search (year rx)) header = true) as Hy.
    { destruct (existsb _ header) eqn:E; [reflexivity|].
      apply (existsb_search_year current_year) in E.
      rewrite Forall_forall in E.
      apply Exists_exists in Hyear as (line & Hin & Hc).
      destruct (E line Hin Hc). }
    unfold output. rewrite (check_data_year _ _ _ _ _ Hge Hy), Hgen.
    destruct verbose; reflexivity.
  - intros Hge Hall. split; [exact (Hne Hall)|].
    apply (existsb_search_year current_year) in Hall.
    unfold output. rewrite (check_data_compare _ _ _ _ _ Hge Hall).
    rewrite Hcmp. fold ref.
    rewrite (bool_decide_eq_false_2 _ (Hne
      (proj1 (existsb_search_year current_year header) Hall))).
    destruct verbose; reflexivity.
Qed.

Lemma placeholder_template_fails_generated_witness :
  verdict true (txt "pkg/zz_generated.go")
    (<[txt "generatego" := [txt "// Copyright YEAR The Authors."]]> ∅) Sample.rx
    (Sample.text [txt "// Copyright 2020 The Authors.";
                  txt "// Code generated by tool. DO NOT EDIT."]) = false /\
  output true (txt "pkg/zz_generated.go")
    (<[txt "generatego" := [txt "// Copyright YEAR The Authors."]]> ∅) Sample.rx
    (Sample.text [txt "// Copyright 2020 The Authors.";
                  txt "// Code generated by tool. DO NOT EDIT."]) =
    [Line Stderr
       (txt "Header in pkg/zz_generated.go does not match reference. Showing diff:");
     DiffLines Stderr [txt "// Copyright YEAR The Authors."]
       [txt "// Copyright 2020 The Authors."] (txt "reference")
       (txt "pkg/zz_generated.go")].
Proof.
  destruct (placeholder_template_fails_generated true (txt "pkg/zz_generated.go")
              (<[txt "generatego" := [txt "// Copyright YEAR The Authors."]]> ∅)
              2024
              (Sample.text [txt "// Copyright 2020 The Authors.";
                            txt "// Code generated by tool. DO NOT EDIT."]))
    as (Hv & _ & _ & Hm).
  - vm_compute. reflexivity.
  - apply Exists_cons_hd. exists (txt "// Copyright "), (txt " The Authors.").
    vm_compute. reflexivity.
  - split; [exact Hv|].
    etransitivity.
    + apply Hm.
      * vm_compute. lia.
      * apply (existsb_search_year 2024). vm_compute. reflexivity.
    + vm_compute. reflexivity.
Defined.

(** X24: an empty file is never taken for generated and has no lines: it
    passes when its template is empty or missing, and fails with the size
    diagnostic otherwise. *)
Theorem empty_file (verbose : bool) (filename : str)
    (refs : gmap str (list str)) (current_year : Z) :
  let rx := compile_regex_patterns current_year in
  let ref := lookup_ref refs (get_file_extension filename) filename in
  check_data verbose filename refs rx [] =
    match ref with
    | [] => ([], true)
    | _ :: _ =>
        ([print (msg_smaller filename 0 (length ref)) (verbose_out verbose)],
         false)
    end.
Proof.
  intros rx ref.
  assert (is_generated_file [] rx = false) as Hgen by reflexivity.
  assert (reference refs rx filename [] = ref) as Href.
  { unfold reference, template_key. rewrite Hgen. reflexivity. }
  assert (normalized_lines rx filename [] = []) as Hlines.
  { unfold normalized_lines, template_key, strip_preamble. rewrite Hgen.
    cbn [andb]. destruct (_ || _); [reflexivity|]. destruct (_ || _); reflexivity. }
  destruct ref as [|l ref'] eqn:E.
  - rewrite check_data_compare.
    + unfold compared_header, normalized_header. rewrite Hgen, Href, Hlines.
      reflexivity.
    + rewrite Href. simpl. lia.
    + unfold normalized_header. rewrite Href. reflexivity.
  - rewrite check_data_smaller; rewrite Href, Hlines; [reflexivity|simpl; lia].
Qed.
